(** * BlogSpace API server: a shallow embedding of the request handlers

    The development follows the layout of the server sources:
    - [JS]          the few JavaScript primitives the handlers rely on;
    - [Model]       [models/Blog.js] (schema record and instance methods);
    - [Auth]        [middleware/auth.js] (revocation set, [auth], [optionalAuth]);
    - [BlogRoutes]  the blog router ([get /], [get /:id], [post /], [put /:id],
                    [post /:id/like]);
    - [UserRoutes]  [routes/user.js] ([logout], [follow], [unfollow]).

    Conventions.  An [ObjectId] is modelled by the number it holds, so that the
    [toString()] comparisons of the handlers are equalities.  Dates are
    milliseconds since the epoch.  Strings are sequences of code units below
    256.  Handlers are functions from the stores and the request to a response
    and the new stores; the clock is an explicit argument. *)

From Stdlib Require Import ZArith String Ascii HexString List Permutation Lia.
From stdpp Require Import base option list gmap sets strings.

Local Open Scope string_scope.
Local Open Scope list_scope.
Local Open Scope Z_scope.

Definition ObjectId := N.

(** ** JavaScript primitives *)
Module JS.

(** A string is truthy unless it is empty. *)
Definition truthy (s : string) : bool :=
  match s with EmptyString => false | _ => true end.

(** [s.startsWith(p)] *)
Definition startsWith (s p : string) : bool := String.prefix p s.

Fixpoint drop_chars (n : nat) (s : string) : string :=
  match n, s with
  | O, _ => s
  | S _, EmptyString => EmptyString
  | S n', String _ s' => drop_chars n' s'
  end.

(** [s.replace(pat, '')] with a string pattern: only the first occurrence
    is removed. *)
Fixpoint remove_first (pat s : string) : string :=
  if String.prefix pat s then drop_chars (String.length pat) s
  else match s with
       | EmptyString => EmptyString
       | String c s' => String c (remove_first pat s')
       end.

(** The class [\s] of regular expressions, on code units below 256:
    TAB, LF, VT, FF, CR, SPACE and NO-BREAK SPACE. *)
Definition is_whitespace (c : ascii) : bool :=
  let n := nat_of_ascii c in
  ((9 <=? n) && (n <=? 13))%nat || (n =? 32)%nat || (n =? 160)%nat.

(** [s.split(/\s+/)]: the pieces between maximal runs of whitespace.  A
    leading or trailing run yields an empty piece, and the empty string
    yields one empty piece.  [cur] is the piece being read, reversed;
    [in_run] tells whether the previous character was whitespace. *)
Fixpoint split_ws_from (s : string) (cur : list ascii) (in_run : bool)
  : list string :=
  match s with
  | EmptyString => [string_of_list_ascii (rev cur)]
  | String c s' =>
      if is_whitespace c then
        if in_run then split_ws_from s' cur true
        else string_of_list_ascii (rev cur) :: split_ws_from s' [] true
      else split_ws_from s' (c :: cur) false
  end.

Definition split_ws (s : string) : list string := split_ws_from s [] false.

Fixpoint trim_start (s : string) : string :=
  match s with
  | String c s' => if is_whitespace c then trim_start s' else s
  | EmptyString => EmptyString
  end.

Definition reverse (s : string) : string :=
  string_of_list_ascii (rev (list_ascii_of_string s)).

(** [s.trim()], which the schema applies to titles and tags. *)
Definition trim (s : string) : string :=
  reverse (trim_start (reverse (trim_start s))).

(** [Array.prototype.indexOf] on an array of ids. *)
Fixpoint indexOf (u : ObjectId) (l : list ObjectId) : option nat :=
  match l with
  | [] => None
  | x :: l' => if N.eqb x u then Some O else S <$> indexOf u l'
  end.

(** [l.splice(i, 1)] *)
Definition splice1 (i : nat) (l : list ObjectId) : list ObjectId :=
  take i l ++ drop (S i) l.

(** [l.includes(u)] *)
Definition includes (u : ObjectId) (l : list ObjectId) : bool :=
  bool_decide (is_Some (indexOf u l)).

(** Numbers as the handlers produce them: integers, and the two values a
    division by zero gives. *)
Inductive Number :=
| Int (z : Z)
| Infinity
| NaN.

(** [Math.ceil(a / b)] for integers [a] and [b <> 0]: the quotient
    rounded towards plus infinity. *)
Definition ceil_quot (a b : Z) : Z := - ((- a) / b).

(** [Math.ceil(a / b)] for an integer [a >= 0] and any integer [b]. *)
Definition ceil_div (a b : Z) : Number :=
  if b =? 0 then (if a =? 0 then NaN else Infinity)
  else Int (ceil_quot a b).

End JS.

(** ** models/Blog.js *)
Module Model.

(** [media]: a nested object; a client may leave any key out. *)
Record Media := mkMedia {
  media_type : option string;
  media_url : option string;
  media_public_id : option string;
  media_format : option string;
  media_size : option Z;
  media_duration : option Z
}.

(** An entry of [mediaGallery]; [type] and [url] are required by the
    schema, which is checked when the document is saved. *)
Record GalleryItem := mkGalleryItem {
  g_type : option string;
  g_url : option string;
  g_public_id : option string;
  g_format : option string;
  g_size : option Z;
  g_duration : option Z;
  g_order : Z;
  g_placement : string
}.

Record Comment := mkComment {
  c_user : ObjectId;
  c_content : string;
  c_createdAt : Z
}.

Record Blog := mkBlog {
  _id : ObjectId;
  title : string;
  content : string;
  excerpt : string;
  author : ObjectId;
  category : string;
  tags : list string;
  media : Media;
  mediaGallery : list GalleryItem;
  status : string;
  publishedAt : option Z;
  readTime : Z;
  views : Z;
  likes : list ObjectId;
  comments : list Comment
}.

Definition categories : list string :=
  ["Technology"; "Design"; "Development"; "Business"; "Lifestyle"; "Travel";
   "Food"; "Health"; "Education"; "Entertainment"; "Other"].

(** The values the schema allows for [status]. *)
Definition statuses : list string := ["draft"; "published"; "archived"].

Definition default_media_url : string :=
  "https://images.unsplash.com/photo-1486312338219-ce68d2c6f44d?w=600&h=400&fit=crop".

Definition set_views (v : Z) (b : Blog) : Blog :=
  mkBlog (_id b) (title b) (content b) (excerpt b) (author b) (category b)
         (tags b) (media b) (mediaGallery b) (status b) (publishedAt b)
         (readTime b) v (likes b) (comments b).

Definition set_likes (l : list ObjectId) (b : Blog) : Blog :=
  mkBlog (_id b) (title b) (content b) (excerpt b) (author b) (category b)
         (tags b) (media b) (mediaGallery b) (status b) (publishedAt b)
         (readTime b) (views b) l (comments b).

Definition nonempty (s : string) : bool :=
  match s with EmptyString => false | _ => true end.

(** Document validation, as the schema declares it: [required] (which an
    empty string fails), [minlength], [maxlength], [enum] and [min]. *)
Definition validate_media (m : Media) : bool :=
  match media_type m with
  | Some t => bool_decide (t ∈ ["image"; "video"; "none"])
  | None => true
  end.

Definition validate_gallery_item (g : GalleryItem) : bool :=
  match g_type g, g_url g with
  | Some t, Some u =>
      nonempty t && bool_decide (t ∈ ["image"; "video"]) && nonempty u
      && bool_decide (g_placement g ∈ ["header"; "inline"; "footer"])
  | _, _ => false
  end.

Definition validate (b : Blog) : bool :=
  nonempty (title b) && (String.length (title b) <=? 200)%nat
  && (10 <=? String.length (content b))%nat
  && nonempty (excerpt b) && (String.length (excerpt b) <=? 300)%nat
  && bool_decide (category b ∈ categories)
  && forallb (fun t => (String.length t <=? 20)%nat) (tags b)
  && validate_media (media b)
  && forallb validate_gallery_item (mediaGallery b)
  && bool_decide (status b ∈ statuses)
  && (1 <=? readTime b).

(** The virtual [likeCount]. *)
Definition likeCount (b : Blog) : nat := length (likes b).

(** [this.views += 1] *)
Definition incrementViews (b : Blog) : Blog := set_views (views b + 1) b.

Definition toggleLike (u : ObjectId) (b : Blog) : Blog :=
  match JS.indexOf u (likes b) with
  | Some likeIndex => set_likes (JS.splice1 likeIndex (likes b)) b
  | None => set_likes (likes b ++ [u]) b
  end.

End Model.

(** ** The stores *)
Module Store.
Import Model.

(** Modelled from the spec: [models/User.js] is not part of the sources; an
    identity carries a unique handle, a display name, a role flag and the
    two relation lists, which is what the handlers read and write. *)
Record User := mkUser {
  u_id : ObjectId;
  username : string;
  fullName : string;
  role : string;
  followers : list ObjectId;
  following : list ObjectId
}.

Definition set_following (l : list ObjectId) (u : User) : User :=
  mkUser (u_id u) (username u) (fullName u) (role u) (followers u) l.

Definition set_followers (l : list ObjectId) (u : User) : User :=
  mkUser (u_id u) (username u) (fullName u) (role u) l (following u).

(** The process state: the in-memory [tokenBlacklist] of [auth.js] and the
    two collections, keyed by [_id]. *)
Record State := mkState {
  tokenBlacklist : gset string;
  users : gmap ObjectId User;
  blogs : gmap ObjectId Blog
}.

Definition set_blacklist (s : gset string) (st : State) : State :=
  mkState s (users st) (blogs st).

Definition set_users (m : gmap ObjectId User) (st : State) : State :=
  mkState (tokenBlacklist st) m (blogs st).

Definition set_blogs (m : gmap ObjectId Blog) (st : State) : State :=
  mkState (tokenBlacklist st) (users st) m.

(** What a handler or a middleware sees of the request. *)
Record Request := mkRequest {
  authorization : option string;   (* req.header('Authorization') *)
  user : option User               (* req.user *)
}.

Definition set_user (u : User) (r : Request) : Request :=
  mkRequest (authorization r) (Some u).

End Store.

(** ** Responses *)
Module Http.
Import Model.

(** A post as it is sent back: the document and, for an authenticated
    viewer, [isLiked]. *)
Record BlogView := mkBlogView {
  doc : Blog;
  isLiked : option bool
}.

Inductive Payload :=
| Error (error : string)
| Errors (errors : list string)
| Message (message : string)
| Listing (blogs : list BlogView) (totalPages : JS.Number)
          (currentPage : Z) (total : Z)
| Single (blog : BlogView)
| Saved (message : string) (blog : Blog)
| LikeState (message : string) (isLiked : bool) (likeCount : nat).

Record Response := mkResponse {
  code : nat;
  payload : Payload
}.

Definition ok (p : Payload) : Response := mkResponse 200 p.
Definition fail (c : nat) (e : string) : Response := mkResponse c (Error e).

End Http.

(** ** middleware/auth.js *)
Module Auth.
Import Store.

(** The payload of a decoded token: [userId] is absent when the field is
    missing or falsy. *)
Record Payload := mkPayload {
  userId : option ObjectId;
  iat : option Z;
  exp : option Z
}.

(** The outcomes of [jwt.verify]: the payload, or one of the errors it
    throws ([OtherError] stands for those the middleware does not name,
    such as [NotBeforeError]). *)
Inductive VerifyResult :=
| Decoded (p : Payload)
| JsonWebTokenError
| TokenExpiredError
| OtherError.

(** A middleware either answers the request itself or calls [next()]. *)
Inductive Outcome :=
| Responded (code : nat) (error : string)
| CalledNext.

Definition blacklistToken (token : string) (st : State) : State :=
  set_blacklist ({[ token ]} ∪ tokenBlacklist st) st.

Definition isTokenBlacklisted (token : string) (st : State) : bool :=
  bool_decide (token ∈ tokenBlacklist st).

Section Middleware.
(** [jwt.verify(token, secret)] at the time of the request. *)
Variable jwt_verify : string -> VerifyResult.

Definition auth (st : State) (req : Request) : Request * Outcome :=
  match authorization req with
  | None => (req, Responded 401 "Access denied. No token provided.")
  | Some authHeader =>
      if negb (JS.truthy authHeader)
         || negb (JS.startsWith authHeader "Bearer ")
      then (req, Responded 401 "Access denied. No token provided.")
      else
        let token := JS.remove_first "Bearer " authHeader in
        if isTokenBlacklisted token st
        then (req, Responded 401 "Token has been invalidated")
        else
          match jwt_verify token with
          | Decoded decoded =>
              match userId decoded with
              | None =>
                  (req, Responded 401 "Invalid token: Missing user ID")
              | Some uid =>
                  match users st !! uid with
                  | None => (req, Responded 404 "User not found")
                  | Some u => (set_user u req, CalledNext)
                  end
              end
          | JsonWebTokenError => (req, Responded 401 "Invalid token.")
          | TokenExpiredError => (req, Responded 401 "Token expired.")
          | OtherError =>
              (req, Responded 500 "Server error during authentication.")
          end
  end.

(** [User.findById(decoded.userId)]; an absent id finds nothing. *)
Definition findUser (st : State) (uid : option ObjectId) : option User :=
  uid ≫= λ i, users st !! i.

Definition optionalAuth (st : State) (req : Request) : Request * Outcome :=
  match JS.remove_first "Bearer " <$> authorization req with
  | Some token =>
      if JS.truthy token then
        match jwt_verify token with
        | Decoded decoded =>
            match findUser st (userId decoded) with
            | Some u => (set_user u req, CalledNext)
            | None => (req, CalledNext)
            end
        | _ => (req, CalledNext)      (* catch (error) { next(); } *)
        end
      else (req, CalledNext)
  | None => (req, CalledNext)
  end.

End Middleware.

End Auth.

(** ** The blog router *)
Module BlogRoutes.
Import Model Store Http Auth.

(** *** Requests *)

(** An entry of [mediaGallery] as a client sends it. *)
Record GalleryInput := mkGalleryInput {
  gi_type : option string;
  gi_url : option string;
  gi_public_id : option string;
  gi_format : option string;
  gi_size : option Z;
  gi_duration : option Z;
  gi_order : option Z;
  gi_placement : option string
}.

(** The JSON body of [POST /] and [PUT /:id]: every key may be absent.
    [b_publishedAt] and [b_readTime] stand for the keys a client may send
    that are not in the allow-list of the update. *)
Record Body := mkBody {
  b_title : option string;
  b_content : option string;
  b_excerpt : option string;
  b_category : option string;
  b_tags : option (list string);
  b_media : option Media;
  b_mediaGallery : option (list GalleryInput);
  b_status : option string;
  b_publishedAt : option (option Z);
  b_readTime : option Z
}.

(** The query string of [GET /].  [page] and [limit], when present, are
    decimal integer literals, on which [parseInt] and the conversion to a
    number agree. *)
Record Query := mkQuery {
  q_page : option Z;
  q_limit : option Z;
  q_category : option string;
  q_search : option string;
  q_sort : option string
}.

(** *** express-validator chains *)

Definition isLength (min : nat) (max : option nat) (s : string) : bool :=
  (min <=? String.length s)%nat
  && match max with
     | Some m => (String.length s <=? m)%nat
     | None => true
     end.

Definition isIn (values : list string) (s : string) : bool :=
  bool_decide (s ∈ values).

(** One link of a chain: the message is reported when the check fails.
    With [optional = true] an absent field is not checked; otherwise an
    absent field fails the check. *)
Definition check {A} (optional : bool) (field : option A)
           (ok : A -> bool) (msg : string) : list string :=
  match field with
  | None => if optional then [] else [msg]
  | Some v => if ok v then [] else [msg]
  end.

(** A wildcard chain such as [tags.*]: one report per failing element. *)
Definition check_each {A B} (field : option (list A))
           (sel : A -> option B) (ok : B -> bool) (msg : string)
  : list string :=
  match field with
  | None => []
  | Some l => flat_map (fun a => check true (sel a) ok msg) l
  end.

Definition placements : list string := ["header"; "inline"; "footer"].

Definition validate_fields (optional : bool) (b : Body) : list string :=
  check optional (b_title b) (isLength 5 (Some 200%nat))
        "Title must be between 5 and 200 characters"
  ++ check optional (b_content b) (isLength 10 None)
        "Content must be at least 10 characters"
  ++ check optional (b_excerpt b) (isLength 10 (Some 300%nat))
        "Excerpt must be between 10 and 300 characters"
  ++ check optional (b_category b) (isIn categories) "Invalid category"
  ++ check optional (b_tags b) (fun l => (length l <=? 10)%nat)
        "Maximum 10 tags allowed".

Definition validate_gallery_items (b : Body) : list string :=
  check_each (b_mediaGallery b) gi_type (isIn ["image"; "video"])
        "Each media item type must be image or video"
  ++ check_each (b_mediaGallery b) gi_placement (isIn placements)
        "Placement must be header, inline, or footer".

Definition validate_gallery (b : Body) : list string :=
  check true (b_mediaGallery b) (fun l => (length l <=? 20)%nat)
        "Media gallery must be an array (max 20 items)".

Definition validate_status (b : Body) : list string :=
  check true (b_status b) (isIn ["draft"; "published"]) "Invalid status".

(** The chain of [POST /]. *)
Definition validate_create (b : Body) : list string :=
  validate_fields false b
  ++ check_each (b_tags b) Some (isLength 1 (Some 20%nat))
        "Each tag must be between 1 and 20 characters"
  ++ validate_gallery_items b
  ++ validate_gallery b
  ++ validate_status b.

(** The chain of [PUT /:id]: every field is optional and the elements of
    [tags] are not checked. *)
Definition validate_update (b : Body) : list string :=
  validate_fields true b
  ++ validate_gallery b
  ++ validate_gallery_items b
  ++ validate_status b.

(** *** Helpers shared by the handlers *)

Definition is_published (b : Blog) : bool := String.eqb (status b) "published".

(** [blog.author.toString() !== req.user._id.toString()] *)
Definition is_author (u : User) (b : Blog) : bool := N.eqb (author b) (u_id u).

(** [!req.user || blog.author ... !== req.user._id ...] *)
Definition not_owner (req : Request) (b : Blog) : bool :=
  match user req with
  | None => true
  | Some u => negb (is_author u b)
  end.

Definition view (req : Request) (b : Blog) : BlogView :=
  mkBlogView b ((fun u => JS.includes (u_id u) (likes b)) <$> user req).

(** The mapping both [POST /] and [PUT /:id] apply to the gallery. *)
Definition gallery_entry (idx : nat) (m : GalleryInput) : GalleryItem :=
  mkGalleryItem (gi_type m) (gi_url m) (gi_public_id m) (gi_format m)
                (gi_size m) (gi_duration m)
                (default (Z.of_nat idx) (gi_order m))
                (match gi_placement m with
                 | Some p => if isIn placements p then p else "header"
                 | None => "header"
                 end).

Definition gallery (l : list GalleryInput) : list GalleryItem :=
  imap gallery_entry l.

(** [Math.ceil(content.split(/\s+/).length / 200)] *)
Definition wordCount (content : string) : Z :=
  Z.of_nat (length (JS.split_ws content)).

Definition readTimeOf (content : string) : Z :=
  JS.ceil_quot (wordCount content) 200.

(** The update document of [PUT /:id] ([filteredUpdates]): the keys of
    the allow-list, and the two keys the handler computes. *)
Record Patch := mkPatch {
  p_title : option string;
  p_content : option string;
  p_excerpt : option string;
  p_category : option string;
  p_tags : option (list string);
  p_media : option Media;
  p_mediaGallery : option (list GalleryItem);
  p_status : option string;
  p_publishedAt : option (option Z);
  p_readTime : option Z
}.

Definition set_publishedAt (d : option Z) (p : Patch) : Patch :=
  mkPatch (p_title p) (p_content p) (p_excerpt p) (p_category p) (p_tags p)
          (p_media p) (p_mediaGallery p) (p_status p) (Some d) (p_readTime p).

Definition set_readTime (r : Z) (p : Patch) : Patch :=
  mkPatch (p_title p) (p_content p) (p_excerpt p) (p_category p) (p_tags p)
          (p_media p) (p_mediaGallery p) (p_status p) (p_publishedAt p)
          (Some r).

(** [$set] of every key of the patch; the schema trims titles and tags. *)
Definition apply_patch (p : Patch) (b : Blog) : Blog :=
  mkBlog (_id b)
         (default (title b) (JS.trim <$> p_title p))
         (default (content b) (p_content p))
         (default (excerpt b) (p_excerpt p))
         (author b)
         (default (category b) (p_category p))
         (default (tags b) (List.map JS.trim <$> p_tags p))
         (default (media b) (p_media p))
         (default (mediaGallery b) (p_mediaGallery p))
         (default (status b) (p_status p))
         (default (publishedAt b) (p_publishedAt p))
         (default (readTime b) (p_readTime p))
         (views b) (likes b) (comments b).

(** [deleteFile] of [utils/cloudinary.js]: the identifiers for which the
    media host is asked to destroy an asset. *)
Definition deleteFile (public_id : option string) : list string :=
  match public_id with
  | Some i =>
      if JS.truthy i && negb (JS.startsWith i "local:") then [i] else []
  | None => []
  end.

(** *** GET / *)

Inductive SortOptions :=
| PublishedAt (direction : Z)
| Views (direction : Z).

Definition sortOptions (sort : option string) : SortOptions :=
  match sort with
  | None => PublishedAt (-1)
  | Some s =>
      if String.eqb s "newest" then PublishedAt (-1)
      else if String.eqb s "oldest" then PublishedAt 1
      else if String.eqb s "popular" then Views (-1)
      else if String.eqb s "trending" then Views (-1)
      else PublishedAt (-1)
  end.

(** The filter document: [status] is always ['published']. *)
Record Filter := mkFilter {
  f_category : option string;
  f_search : option (string -> bool)
}.

Definition matches (f : Filter) (b : Blog) : bool :=
  is_published b
  && match f_category f with
     | Some c => String.eqb (category b) c
     | None => true
     end
  && match f_search f with
     | Some re => re (title b) || re (excerpt b) || re (content b)
                  || existsb re (tags b)
     | None => true
     end.

(** The documents of the collection that satisfy the filter. *)
Definition find (f : Filter) (st : State) : list Blog :=
  List.filter (matches f) (snd <$> map_to_list (blogs st)).

Definition countDocuments (f : Filter) (st : State) : Z :=
  Z.of_nat (length (find f st)).

Section Handlers.
(** A case-insensitive regular expression built from a pattern; [None]
    when the pattern is not a regular expression. *)
Variable regex_i : string -> option (string -> bool).
(** The order in which the database returns documents for a sort key. *)
Variable sort_docs : SortOptions -> list Blog -> list Blog.
(** The update validators the database layer runs on a patch. *)
Variable runValidators : Patch -> bool.

Definition category_filter (category : option string) : option string :=
  match category with
  | Some c => if JS.truthy c && negb (String.eqb c "all") then Some c else None
  | None => None
  end.

(** The [$or] clause; the outer [None] is the [SyntaxError] of
    [new RegExp]. *)
Definition search_filter (search : option string)
  : option (option (string -> bool)) :=
  match search with
  | Some s => if JS.truthy s then Some <$> regex_i s else Some None
  | None => Some None
  end.

Definition getBlogs (st : State) (req : Request) (q : Query) : Response :=
  let page := default 1 (q_page q) in
  let limit := default 10 (q_limit q) in
  let pageNum := Z.max 1 page in
  let limitNum := Z.min 100 (Z.max 1 limit) in
  match search_filter (q_search q) with
  | None => mkResponse 500 (Error "Failed to fetch blogs")
  | Some re =>
      let query := mkFilter (category_filter (q_category q)) re in
      let blogs :=
        take (Z.to_nat limitNum)
             (drop (Z.to_nat ((pageNum - 1) * limitNum))
                   (sort_docs (sortOptions (q_sort q)) (find query st))) in
      let total := countDocuments query st in
      ok (Listing (view req <$> blogs) (JS.ceil_div total limit) page total)
  end.

(** *** GET /:id *)

Definition getBlog (st : State) (req : Request) (id : ObjectId)
  : Response * State :=
  match blogs st !! id with
  | None => (fail 404 "Blog not found", st)
  | Some blogDoc =>
      if negb (is_published blogDoc) && not_owner req blogDoc
      then (fail 404 "Blog not found", st)
      else if is_published blogDoc && not_owner req blogDoc
      then
        let blogDoc' := incrementViews blogDoc in
        (ok (Single (view req blogDoc')),
         set_blogs (<[id := blogDoc']> (blogs st)) st)
      else (ok (Single (view req blogDoc)), st)
  end.

(** *** POST / *)

Definition createBlog (now : Z) (newId : ObjectId)
           (st : State) (req : Request) (body : Body) : Response * State :=
  match validate_create body with
  | (_ :: _) as errors => (mkResponse 400 (Errors errors), st)
  | [] =>
      match b_content body, user req with
      | Some content, Some u =>
          let status := default "draft" (b_status body) in
          let media :=
            default (mkMedia (Some "none") (Some default_media_url)
                             None None None None) (b_media body) in
          let blog :=
            mkBlog newId
                   (JS.trim (default "" (b_title body)))
                   content
                   (default "" (b_excerpt body))
                   (u_id u)
                   (default "Other" (b_category body))
                   (List.map JS.trim (default [] (b_tags body)))
                   (mkMedia (Some (default "none" (media_type media)))
                            (Some (default default_media_url (media_url media)))
                            (media_public_id media) (media_format media)
                            (media_size media) (media_duration media))
                   (default [] (gallery <$> b_mediaGallery body))
                   status
                   (if String.eqb status "published" then Some now else None)
                   (readTimeOf content)
                   0 [] [] in
          if validate blog && bool_decide (blogs st !! newId = None)
          then (mkResponse 201 (Saved "Blog created successfully" blog),
                set_blogs (<[newId := blog]> (blogs st)) st)
          else (fail 500 "Server error during blog creation", st)
      | _, _ => (fail 500 "Server error during blog creation", st)
      end
  end.

(** *** PUT /:id *)

(** The allow-list: [publishedAt] and [readTime] of the body do not
    pass; the gallery is normalised on the way. *)
Definition filteredUpdates (updates : Body) : Patch :=
  mkPatch (b_title updates) (b_content updates) (b_excerpt updates)
          (b_category updates) (b_tags updates) (b_media updates)
          (gallery <$> b_mediaGallery updates) (b_status updates)
          None None.

Definition stamp_publication (now : Z) (blog : Blog) (p : Patch) : Patch :=
  if bool_decide (p_status p = Some "published") && negb (is_published blog)
  then set_publishedAt (Some now) p
  else if bool_decide (p_status p = Some "draft")
  then set_publishedAt None p
  else p.

Definition stamp_readTime (p : Patch) : Patch :=
  match p_content p with
  | Some content =>
      if JS.truthy content then set_readTime (readTimeOf content) p else p
  | None => p
  end.

(** [filteredUpdates] as it reaches [findByIdAndUpdate]. *)
Definition finalUpdates (now : Z) (blog : Blog) (updates : Body) : Patch :=
  stamp_readTime (stamp_publication now blog (filteredUpdates updates)).

(** The third component lists the assets the media host was asked to
    destroy; that request is made before the document is written. *)
Definition updateBlog (now : Z) (st : State) (req : Request)
           (id : ObjectId) (updates : Body)
  : Response * State * list string :=
  match validate_update updates with
  | (_ :: _) as errors => (mkResponse 400 (Errors errors), st, [])
  | [] =>
      match blogs st !! id with
      | None => (fail 404 "Blog not found", st, [])
      | Some blog =>
          match user req with
          | None => (fail 500 "Server error during blog update", st, [])
          | Some u =>
              if negb (is_author u blog)
              then (fail 403 "Not authorized to update this blog", st, [])
              else
                let patch := finalUpdates now blog updates in
                let destroyed :=
                  match p_media patch with
                  | Some _ => deleteFile (media_public_id (media blog))
                  | None => []
                  end in
                if runValidators patch
                then
                  let updatedBlog := apply_patch patch blog in
                  (ok (Saved "Blog updated successfully" updatedBlog),
                   set_blogs (<[id := updatedBlog]> (blogs st)) st,
                   destroyed)
                else (fail 500 "Server error during blog update", st,
                      destroyed)
          end
      end
  end.

(** *** POST /:id/like *)

Definition likeBlog (st : State) (req : Request) (id : ObjectId)
  : Response * State :=
  match blogs st !! id with
  | None => (fail 404 "Blog not found", st)
  | Some blog =>
      if negb (is_published blog) then (fail 404 "Blog not found", st)
      else
        match user req with
        | None => (fail 500 "Server error", st)
        | Some u =>
            let blog' := toggleLike (u_id u) blog in
            (ok (LikeState "Like toggled successfully"
                           (JS.includes (u_id u) (likes blog'))
                           (likeCount blog')),
             set_blogs (<[id := blog']> (blogs st)) st)
        end
  end.

End Handlers.

End BlogRoutes.

(** ** routes/user.js *)
Module UserRoutes.
Import Store Http Auth.

(** [POST /logout]: the token of the request joins the revocation set. *)
Definition logout (st : State) (req : Request) : Response * State :=
  match JS.remove_first "Bearer " <$> authorization req with
  | Some token =>
      if JS.truthy token
      then (ok (Message "Logged out successfully"), blacklistToken token st)
      else (ok (Message "Logged out successfully"), st)
  | None => (ok (Message "Logged out successfully"), st)
  end.

(** [doc.save()] after a change of one relation list: only that path of
    the stored document is written. *)
Definition save_following (id : ObjectId) (l : list ObjectId) (st : State)
  : State :=
  set_users (alter (set_following l) id (users st)) st.

Definition save_followers (id : ObjectId) (l : list ObjectId) (st : State)
  : State :=
  set_users (alter (set_followers l) id (users st)) st.

Section Handlers.
(** The text of an id, [ObjectId.prototype.toString], and the cast of a
    text to an id that [findById] and [push] on an array of ids perform;
    [None] stands for the [CastError] they throw. *)
Variable toString : ObjectId -> string.
Variable castId : string -> option ObjectId.

(** [ids.includes(text)] on a stored array of ids: the argument is
    compared by [==] with each element, that is with the text of each
    element. *)
Definition includes_text (text : string) (ids : list ObjectId) : bool :=
  existsb (fun id => String.eqb text (toString id)) ids.

(** [POST /follow/:userId]; [userId] is the text of the URL. *)
Definition follow (st : State) (req : Request) (userId : string)
  : Response * State :=
  match user req with
  | None => (fail 500 "Server error", st)
  | Some me =>
      if String.eqb (toString (u_id me)) userId
      then (fail 400 "You cannot follow yourself", st)
      else
        match castId userId with
        | None => (fail 500 "Server error", st)
        | Some target =>
            match users st !! target with
            | None => (fail 404 "User not found", st)
            | Some userToFollow =>
                match users st !! u_id me with
                | None => (fail 500 "Server error", st)
                | Some currentUser =>
                    if includes_text userId (following currentUser)
                    then (fail 400 "Already following this user", st)
                    else
                      let st1 :=
                        save_following (u_id me)
                          (following currentUser ++ [target]) st in
                      let st2 :=
                        save_followers target
                          (followers userToFollow ++ [u_id me]) st1 in
                      (ok (Message "User followed successfully"), st2)
                end
            end
        end
  end.

(** [ids.filter(id => id.toString() !== text)] *)
Definition without (text : string) (ids : list ObjectId) : list ObjectId :=
  List.filter (fun id => negb (String.eqb (toString id) text)) ids.

(** [POST /unfollow/:userId]; [userId] is the text of the URL. *)
Definition unfollow (st : State) (req : Request) (userId : string)
  : Response * State :=
  match user req with
  | None => (fail 500 "Server error", st)
  | Some me =>
      match castId userId with
      | None => (fail 500 "Server error", st)
      | Some target =>
          match users st !! u_id me, users st !! target with
          | _, None => (fail 404 "User not found", st)
          | None, Some _ => (fail 500 "Server error", st)
          | Some currentUser, Some userToUnfollow =>
              let st1 :=
                save_following (u_id me)
                  (without userId (following currentUser)) st in
              let st2 :=
                save_followers target
                  (without (toString (u_id me)) (followers userToUnfollow))
                  st1 in
              (ok (Message "User unfollowed successfully"), st2)
          end
      end
  end.

End Handlers.

End UserRoutes.

(** ** Routes: a middleware in front of a handler *)
Module App.
Import Store Http Auth.

Definition route (mw : State -> Request -> Request * Outcome)
           (handler : State -> Request -> Response * State)
           (st : State) (req : Request) : Response * State :=
  match mw st req with
  | (_, Responded c e) => (fail c e, st)
  | (req', CalledNext) => handler st req'
  end.

Section Routes.
Variable jwt_verify : string -> VerifyResult.
Variable runValidators : BlogRoutes.Patch -> bool.
Variable toString : ObjectId -> string.
Variable castId : string -> option ObjectId.

Definition post_logout := route (auth jwt_verify) UserRoutes.logout.

Definition post_follow (userId : string) :=
  route (auth jwt_verify)
        (fun st req => UserRoutes.follow toString castId st req userId).

Definition get_blog (id : ObjectId) :=
  route (optionalAuth jwt_verify)
        (fun st req => BlogRoutes.getBlog st req id).

Definition post_like (id : ObjectId) :=
  route (auth jwt_verify) (fun st req => BlogRoutes.likeBlog st req id).

Definition put_blog (now : Z) (id : ObjectId) (updates : BlogRoutes.Body) :=
  route (auth jwt_verify)
        (fun st req =>
           (BlogRoutes.updateBlog runValidators now st req id updates).1).

End Routes.

End App.

(** ** Answers of the handlers below *)
Module Reply.

(** What a handler sends: a refusal with its status and error text, the
    report of a validation chain (status 400), or a result with its status
    and, when there is one, its message. *)
Inductive Answer (A : Type) :=
| Refused (code : nat) (error : string)
| Rejected (errors : list string)
| Done (code : nat) (message : option string) (data : A).

Arguments Refused {A} code error.
Arguments Rejected {A} errors.
Arguments Done {A} code message data.

Definition code_of {A} (a : Answer A) : nat :=
  match a with
  | Refused c _ => c
  | Rejected _ => 400%nat
  | Done c _ _ => c
  end.

End Reply.

(** ** middleware/upload.js *)
Module Upload.

(** An uploaded file, as [express-fileupload] hands it over. *)
Record File := mkFile {
  mimetype : string;
  size : Z;
  tempFilePath : string
}.

Definition validateFileType (file : option File) (allowedTypes : list string)
  : bool :=
  match file with
  | None => false
  | Some f => bool_decide (mimetype f ∈ allowedTypes)
  end.

Definition allowedImageTypes : list string :=
  ["image/jpeg"; "image/jpg"; "image/png"; "image/gif"; "image/webp"].

Definition allowedVideoTypes : list string :=
  ["video/mp4"; "video/avi"; "video/mov"; "video/wmv"; "video/flv";
   "video/webm"].

Definition validateImage (file : option File) : bool :=
  validateFileType file allowedImageTypes.

Definition validateVideo (file : option File) : bool :=
  validateFileType file allowedVideoTypes.

(** [maxSize] defaults to 10 MB. *)
Definition validateFileSize (file : option File) (maxSize : option Z) : bool :=
  match file with
  | None => false
  | Some f => size f <=? default (10 * 1024 * 1024) maxSize
  end.

End Upload.

(** ** utils/cloudinary.js *)
Module Cloudinary.
Import Upload.

(** What the media host returns for an upload. *)
Record UploadResult := mkUploadResult {
  secure_url : string;
  public_id : string;
  format : string;
  bytes : Z;
  duration : option Z
}.

(** What [uploadImage] and [uploadVideo] return; [up_duration] is the key
    [duration], which only [uploadVideo] sets. *)
Record Uploaded := mkUploaded {
  up_url : string;
  up_public_id : string;
  up_format : string;
  up_size : Z;
  up_duration : option (option Z)
}.

(** [s.includes(pat)] on strings. *)
Fixpoint contains (pat s : string) : bool :=
  String.prefix pat s
  || match s with
     | EmptyString => false
     | String _ s' => contains pat s'
     end.

Definition resource_type_of (public_id : string) : string :=
  if contains "video" public_id then "video" else "image".

Section Host.
(** [cloudinary.uploader.upload(path, { folder, resource_type })] and
    [cloudinary.uploader.destroy(public_id, { resource_type })]; [None]
    when the call fails. *)
Variable upload : string -> string -> string -> option UploadResult.
Variable destroy : string -> string -> option string.

Definition uploadImage (file : File) (folder : string) : option Uploaded :=
  (fun result =>
     mkUploaded (secure_url result) (public_id result) (format result)
                (bytes result) None)
    <$> upload (tempFilePath file) folder "image".

Definition uploadVideo (file : File) (folder : string) : option Uploaded :=
  (fun result =>
     mkUploaded (secure_url result) (public_id result) (format result)
                (bytes result) (Some (duration result)))
    <$> upload (tempFilePath file) folder "video".

(** The outcome of [deleteFile]: [Skipped] when the host is not asked
    (the function returns [undefined]), the host's result otherwise, or
    [Threw] when the host call fails. *)
Inductive Deletion :=
| Skipped
| Destroyed (result : string)
| Threw.

Definition deleteFile (public_id : option string) : Deletion :=
  match public_id with
  | Some i =>
      if JS.truthy i && negb (JS.startsWith i "local:")
      then match destroy i (resource_type_of i) with
           | Some result => Destroyed result
           | None => Threw
           end
      else Skipped
  | None => Skipped
  end.

End Host.

End Cloudinary.

(** ** routes/media.js *)
Module MediaRoutes.
Import Model Upload Cloudinary Reply.

Definition MB : Z := 1024 * 1024.

Definition media_of (type : option string) (result : Uploaded) : Media :=
  mkMedia type (Some (up_url result)) (Some (up_public_id result))
          (Some (up_format result)) (Some (up_size result))
          (default None (up_duration result)).

Section Handlers.
Variable upload : string -> string -> string -> option UploadResult.
Variable destroy : string -> string -> option string.

(** [POST /upload-image]; [file] is [req.files.file]. *)
Definition upload_image (file : option File) : Answer Media :=
  match file with
  | None => Refused 400 "No file uploaded"
  | Some f =>
      if negb (validateImage file)
      then Refused 400
             "Invalid file type. Only JPEG, PNG, GIF, and WebP images are allowed."
      else if negb (validateFileSize file (Some (5 * MB)))
      then Refused 400 "File too large. Image must be less than 5MB."
      else match uploadImage upload f "blogss/images" with
           | Some result =>
               Done 200 (Some "Image uploaded successfully")
                    (media_of (Some "image") result)
           | None => Refused 500 "Failed to upload image"
           end
  end.

(** [POST /upload-video] *)
Definition upload_video (file : option File) : Answer Media :=
  match file with
  | None => Refused 400 "No file uploaded"
  | Some f =>
      if negb (validateVideo file)
      then Refused 400
             "Invalid file type. Only MP4, AVI, MOV, WMV, FLV, and WebM videos are allowed."
      else if negb (validateFileSize file (Some (10 * MB)))
      then Refused 400 "File too large. Video must be less than 10MB."
      else match uploadVideo upload f "blogss/videos" with
           | Some result =>
               Done 200 (Some "Video uploaded successfully")
                    (media_of (Some "video") result)
           | None => Refused 500 "Failed to upload video"
           end
  end.

(** [POST /upload-avatar] *)
Definition upload_avatar (file : option File) : Answer Media :=
  match file with
  | None => Refused 400 "No file uploaded"
  | Some f =>
      if negb (validateImage file)
      then Refused 400
             "Invalid file type. Only JPEG, PNG, GIF, and WebP images are allowed."
      else if negb (validateFileSize file (Some (2 * MB)))
      then Refused 400 "File too large. Avatar must be less than 2MB."
      else match uploadImage upload f "blogss/avatars" with
           | Some result =>
               Done 200 (Some "Avatar uploaded successfully")
                    (media_of None result)
           | None => Refused 500 "Failed to upload avatar"
           end
  end.

(** [DELETE /:public_id] *)
Definition delete_file (public_id : string) : Answer Deletion :=
  if negb (JS.truthy public_id) then Refused 400 "Public ID is required"
  else match deleteFile destroy (Some public_id) with
       | Threw => Refused 500 "Failed to delete file"
       | result => Done 200 (Some "File deleted successfully") result
       end.

(** [POST /upload-blog-media]: the branches either answer or leave the
    upload in [result]; the answer is then built from [result] and the two
    validators. *)
Definition upload_blog_media (file : option File) : Answer Media :=
  match file with
  | None => Refused 400 "No file uploaded"
  | Some f =>
      let result : Answer Media + option Uploaded :=
        if validateImage file then
          if negb (validateFileSize file (Some (5 * MB)))
          then inl (Refused 400 "File too large. Image must be less than 5MB.")
          else inr (uploadImage upload f "blogss/blog-images")
        else if validateVideo file then
          if negb (validateFileSize file (Some (10 * MB)))
          then inl (Refused 400 "File too large. Video must be less than 10MB.")
          else inr (uploadVideo upload f "blogss/blog-videos")
        else inl (Refused 400
                    "Invalid file type. Only images and videos are allowed.") in
      match result with
      | inl answer => answer
      | inr None => Refused 500 "Failed to upload media"
      | inr (Some result) =>
          Done 200 (Some "Media uploaded successfully")
               (mkMedia (Some (if validateImage file then "image" else "video"))
                        (Some (up_url result)) (Some (up_public_id result))
                        (Some (up_format result)) (Some (up_size result))
                        (if validateVideo file
                         then default None (up_duration result) else None))
      end
  end.

End Handlers.

End MediaRoutes.

(** ** middleware/auth.js: the administrators' gate *)
Module AdminAuth.
Import Store Auth.

Section Middleware.
Variable jwt_verify : string -> VerifyResult.

Definition adminAuth (st : State) (req : Request) : Request * Outcome :=
  match JS.remove_first "Bearer " <$> authorization req with
  | Some token =>
      if negb (JS.truthy token)
      then (req, Responded 401 "Access denied. No token provided.")
      else
        match jwt_verify token with
        | Decoded decoded =>
            match findUser st (userId decoded) with
            | None => (req, Responded 401 "Invalid token. User not found.")
            | Some u =>
                if negb (String.eqb (role u) "admin")
                then (req, Responded 403 "Access denied. Admin role required.")
                else (set_user u req, CalledNext)
            end
        | JsonWebTokenError => (req, Responded 401 "Invalid token.")
        | TokenExpiredError => (req, Responded 401 "Token expired.")
        | OtherError => (req, Responded 500 "Server error.")
        end
  | None => (req, Responded 401 "Access denied. No token provided.")
  end.

End Middleware.

End AdminAuth.

(** ** The blog router: the author's list, deletion and comments *)
Module BlogWrites.
Import Model Store Http Auth BlogRoutes Reply.

(** The virtual [commentCount] of [models/Blog.js]. *)
Definition commentCount (b : Blog) : nat := length (comments b).

(** [updateMedia] of [models/Blog.js]. *)
Definition updateMedia (mediaData : Media) (b : Blog) : Blog :=
  mkBlog (_id b) (title b) (content b) (excerpt b) (author b) (category b)
         (tags b) mediaData (mediaGallery b) (status b) (publishedAt b)
         (readTime b) (views b) (likes b) (comments b).

Definition set_comments (c : list Comment) (b : Blog) : Blog :=
  mkBlog (_id b) (title b) (content b) (excerpt b) (author b) (category b)
         (tags b) (media b) (mediaGallery b) (status b) (publishedAt b)
         (readTime b) (views b) (likes b) c.

Section Handlers.
(** The order of [sort({ createdAt: -1 })]. *)
Variable sort_created : list Blog -> list Blog.

(** [GET /my-posts] *)
Definition myPosts (st : State) (req : Request) : Answer (list Blog) :=
  match user req with
  | None => Refused 500 "Server error"
  | Some u =>
      Done 200 None
           (sort_created
              (List.filter (fun b => N.eqb (author b) (u_id u))
                           (snd <$> map_to_list (blogs st))))
  end.

(** [DELETE /:id]; the third component lists the assets the media host was
    asked to destroy. *)
Definition deleteBlog (st : State) (req : Request) (id : ObjectId)
  : Answer unit * State * list string :=
  match blogs st !! id with
  | None => (Refused 404 "Blog not found", st, [])
  | Some blog =>
      match user req with
      | None => (Refused 500 "Server error during blog deletion", st, [])
      | Some u =>
          if negb (is_author u blog)
          then (Refused 403 "Not authorized to delete this blog", st, [])
          else
            (Done 200 (Some "Blog deleted successfully") (),
             set_blogs (delete id (blogs st)) st,
             deleteFile (media_public_id (media blog)))
      end
  end.

(** The chain of [POST /:id/comments]. *)
Definition validate_comment (content : option string) : list string :=
  check false content (isLength 1 (Some 1000%nat))
        "Comment must be between 1 and 1000 characters".

(** [POST /:id/comments]; [content] is [req.body.content]. *)
Definition addComment (now : Z) (st : State) (req : Request) (id : ObjectId)
           (content : option string) : Answer Comment * State :=
  match validate_comment content with
  | (_ :: _) as errors => (Rejected errors, st)
  | [] =>
      match blogs st !! id with
      | None => (Refused 404 "Blog not found", st)
      | Some blog =>
          if negb (is_published blog) then (Refused 404 "Blog not found", st)
          else
            match user req, content with
            | Some u, Some text =>
                let comment := mkComment (u_id u) text now in
                let blog' := set_comments (comments blog ++ [comment]) blog in
                (Done 201 (Some "Comment added successfully") comment,
                 set_blogs (<[id := blog']> (blogs st)) st)
            | _, _ => (Refused 500 "Server error during comment creation", st)
            end
      end
  end.

End Handlers.

End BlogWrites.

(** ** The server as a whole *)
Module Api.
Import Model Store Http Auth BlogRoutes BlogWrites UserRoutes.

(** The requests of the blog router on one post, and those of the user
    router that read and write the relation lists and the revocation set.
    The routes that create a user and edit a profile are not among them. *)
Inductive Call :=
| GetBlog (id : ObjectId)
| CreateBlog (now : Z) (newId : ObjectId) (body : Body)
| UpdateBlog (now : Z) (id : ObjectId) (updates : Body)
| DeleteBlog (id : ObjectId)
| LikeBlog (id : ObjectId)
| AddComment (now : Z) (id : ObjectId) (content : option string)
| Follow (userId : string)
| Unfollow (userId : string)
| Logout.

(** The state a route leaves: the handler runs on the request the
    middleware passes on, and not at all when the middleware answers. *)
Definition behind (mw : State -> Request -> Request * Outcome)
           (handler : State -> Request -> State)
           (st : State) (req : Request) : State :=
  match mw st req with
  | (_, Responded _ _) => st
  | (req', CalledNext) => handler st req'
  end.

Section Server.
Variable jwt_verify : string -> VerifyResult.
Variable runValidators : Patch -> bool.
Variable toString : ObjectId -> string.
Variable castId : string -> option ObjectId.

(** The stores after one request with the given [Authorization] header. *)
Definition serve (st : State) (authorization : option string) (c : Call)
  : State :=
  let req := mkRequest authorization None in
  match c with
  | GetBlog id =>
      behind (optionalAuth jwt_verify) (fun st req => (getBlog st req id).2)
             st req
  | CreateBlog now newId body =>
      behind (auth jwt_verify)
             (fun st req => (createBlog now newId st req body).2) st req
  | UpdateBlog now id updates =>
      behind (auth jwt_verify)
             (fun st req => (updateBlog runValidators now st req id updates).1.2)
             st req
  | DeleteBlog id =>
      behind (auth jwt_verify) (fun st req => (deleteBlog st req id).1.2) st req
  | LikeBlog id =>
      behind (auth jwt_verify) (fun st req => (likeBlog st req id).2) st req
  | AddComment now id content =>
      behind (auth jwt_verify)
             (fun st req => (addComment now st req id content).2) st req
  | Follow userId =>
      behind (auth jwt_verify)
             (fun st req => (follow toString castId st req userId).2) st req
  | Unfollow userId =>
      behind (auth jwt_verify)
             (fun st req => (unfollow toString castId st req userId).2) st req
  | Logout => behind (auth jwt_verify) (fun st req => (logout st req).2) st req
  end.

(** The stores after a sequence of requests. *)
Definition run (st : State) (trace : list (option string * Call)) : State :=
  foldl (fun st hc => serve st hc.1 hc.2) st trace.

End Server.

End Api.

(** ** Vocabulary of the statements *)
Module Terms.
Import Model Store Http Auth.

(** The bearer token of a request, when its [Authorization] header has
    the form the mandatory middleware requires. *)
Definition bearer (req : Request) : option string :=
  match authorization req with
  | Some h =>
      if JS.truthy h && JS.startsWith h "Bearer "
      then Some (JS.remove_first "Bearer " h) else None
  | None => None
  end.

Section Tokens.
Variable jwt_verify : string -> VerifyResult.

(** A token is malformed when its verification fails for a reason other
    than its age, or when it carries no user id. *)
Definition malformed (t : string) : Prop :=
  jwt_verify t = JsonWebTokenError
  \/ exists p, jwt_verify t = Decoded p /\ userId p = None.

Definition expired (t : string) : Prop := jwt_verify t = TokenExpiredError.

(** A token names [uid] when it verifies and embeds that user id. *)
Definition names (t : string) (uid : ObjectId) : Prop :=
  exists p, jwt_verify t = Decoded p /\ userId p = Some uid.
End Tokens.

Definition revoked (st : State) (t : string) : Prop := t ∈ tokenBlacklist st.

(** The viewer is authenticated and is the author of the post. *)
Definition owner (req : Request) (b : Blog) : Prop :=
  exists u, user req = Some u /\ u_id u = author b.

Definition published (b : Blog) : Prop := status b = "published".

(** An authentication failure: status 401 with some error message. *)
Definition unauthenticated (r : Request * Outcome) (req : Request) : Prop :=
  exists e, r = (req, Responded 401 e).

(** The words of a body, in the sense of the specification: the maximal
    runs of characters that are not whitespace.  [cur] is the word being
    read, reversed. *)
Fixpoint words_from (s : string) (cur : list ascii) : list string :=
  match s with
  | EmptyString =>
      match cur with
      | [] => []
      | _ => [string_of_list_ascii (rev cur)]
      end
  | String c s' =>
      if JS.is_whitespace c then
        match cur with
        | [] => words_from s' []
        | _ => string_of_list_ascii (rev cur) :: words_from s' []
        end
      else words_from s' (c :: cur)
  end.

Definition words (s : string) : list string := words_from s [].

(** The read time the specification asks for: [ceil(wordCount / 200)],
    at least 1. *)
Definition readTime_spec (content : string) : Z :=
  Z.max 1 (JS.ceil_quot (Z.of_nat (length (words content))) 200).

Definition starts_with_ws (s : string) : bool :=
  match s with
  | String c _ => JS.is_whitespace c
  | EmptyString => false
  end.

Fixpoint ends_with_ws (s : string) : bool :=
  match s with
  | EmptyString => false
  | String c EmptyString => JS.is_whitespace c
  | String _ s' => ends_with_ws s'
  end.

(** Whether [split] yields an empty piece after the last whitespace run,
    when called on what follows a whitespace character. *)
Definition trailing_empty (s : string) : bool :=
  match s with EmptyString => true | _ => ends_with_ws s end.

(** No stored post holds an identity twice in its like list. *)
Definition likes_are_sets (st : State) : Prop :=
  forall id b, blogs st !! id = Some b -> NoDup (likes b).

(** The page size the listing is meant to use: the requested one, 10 by
    default, clamped to 1..100; and the page number, at least 1. *)
Definition pageSize (q : BlogRoutes.Query) : Z :=
  Z.min 100 (Z.max 1 (default 10 (BlogRoutes.q_limit q))).

Definition pageNumber (q : BlogRoutes.Query) : Z :=
  Z.max 1 (default 1 (BlogRoutes.q_page q)).

(** A file a handler may pass on to the media host: its type is one of
    [types] and it is not larger than [limit]. *)
Definition fits (types : list string) (limit : Z) (f : Upload.File) : Prop :=
  Upload.mimetype f ∈ types /\ Upload.size f <= limit.

(** The life cycle of a post as the handlers keep it: it is a draft or
    published, and it has a publication date exactly when it is published. *)
Definition lifecycle (b : Blog) : Prop :=
  status b ∈ ["draft"; "published"]
  /\ (is_Some (publishedAt b) <-> published b).

(** The stores are sound when every user and every post is stored under
    its own identifier, and every post follows the life cycle, has a read
    time of at least one minute, a view count that is not negative, a like
    list without repetition and an author that is stored. *)
Definition sound (st : State) : Prop :=
  (forall k u, users st !! k = Some u -> u_id u = k)
  /\ (forall id b, blogs st !! id = Some b ->
        _id b = id /\ lifecycle b /\ 1 <= readTime b /\ 0 <= views b
        /\ NoDup (likes b) /\ is_Some (users st !! author b)).

(** The requester, when there is one, is a stored user. *)
Definition known (st : State) (req : Request) : Prop :=
  forall u, user req = Some u -> is_Some (users st !! u_id u).

(** The follow relation is mutual: B is in the following list of A exactly
    when A is in the followers list of B; and nobody follows themselves. *)
Definition mutual (st : State) : Prop :=
  (forall a b A B,
     users st !! a = Some A -> users st !! b = Some B ->
     (b ∈ following A <-> a ∈ followers B))
  /\ (forall a A, users st !! a = Some A -> a ∉ following A).

(** The query [q] asked for another page. *)
Definition at_page (q : BlogRoutes.Query) (page : Z) : BlogRoutes.Query :=
  BlogRoutes.mkQuery (Some page) (BlogRoutes.q_limit q)
                     (BlogRoutes.q_category q) (BlogRoutes.q_search q)
                     (BlogRoutes.q_sort q).

Section Ids.
Variable toString : ObjectId -> string.
Variable castId : string -> option ObjectId.

(** The text of every id is cast back to that id. *)
Definition reads_back : Prop := forall i, castId (toString i) = Some i.

(** A follow or unfollow request is canonical when the text in its URL is
    the text of the id it is cast to, as the service prints ids. *)
Definition canonical (c : Api.Call) : Prop :=
  match c with
  | Api.Follow s | Api.Unfollow s =>
      forall b, castId s = Some b -> s = toString b
  | _ => True
  end.
End Ids.

(** The documents of a listing. *)
Definition listed (r : Response) : list Blog :=
  match payload r with
  | Listing blogs _ _ _ => doc <$> blogs
  | _ => []
  end.

End Terms.

(** ** Sample data *)
Module Examples.
Import Model Store Http Auth BlogRoutes.

(** A verifier that knows four tokens. *)
Definition sample_verify (t : string) : VerifyResult :=
  if String.eqb t "alice" then Decoded (mkPayload (Some 1%N) (Some 0) (Some 10))
  else if String.eqb t "bob" then Decoded (mkPayload (Some 2%N) (Some 0) (Some 10))
  else if String.eqb t "ghost" then Decoded (mkPayload (Some 9%N) (Some 0) (Some 10))
  else if String.eqb t "old" then TokenExpiredError
  else JsonWebTokenError.

Definition alice : User := mkUser 1%N "alice" "Alice" "user" [] [2%N].
Definition bob : User := mkUser 2%N "bob" "Bob" "user" [1%N] [].

Definition sample_users : gmap ObjectId User :=
  <[1%N := alice]> (<[2%N := bob]> ∅).

(** Patterns are taken literally and matched against the whole field. *)
Definition sample_regex (pat : string) : option (string -> bool) :=
  Some (String.eqb pat).

(** An insertion sort on the sort key, null dates first when ascending. *)
Definition sort_key (o : SortOptions) (b : Blog) : Z :=
  match o with
  | PublishedAt d => d * default (-1) (publishedAt b)
  | Views d => d * views b
  end.

Fixpoint insert_sorted (o : SortOptions) (b : Blog) (l : list Blog)
  : list Blog :=
  match l with
  | [] => [b]
  | x :: l' =>
      if sort_key o b <? sort_key o x then b :: l
      else x :: insert_sorted o b l'
  end.

Definition sample_sort (o : SortOptions) (l : list Blog) : list Blog :=
  foldr (insert_sorted o) [] l.

Definition accept_all (p : Patch) : bool := true.

Definition no_media : Media :=
  mkMedia (Some "none") (Some default_media_url) None None None None.

(** The [i]-th sample post: written by Alice, published at time [i]. *)
Definition post (st : string) (i : nat) : Blog :=
  mkBlog (N.of_nat i) "A sample title" "Some sample content"
         "A sample excerpt" 1%N "Other" [] no_media [] st
         (if String.eqb st "published" then Some (Z.of_nat i) else None)
         1 0 [] [].

Definition collection (st : string) (n : nat) : gmap ObjectId Blog :=
  list_to_map ((fun i => (N.of_nat i, post st i)) <$> seq 0 n).

Definition store (st : string) (n : nat) : State :=
  mkState ∅ sample_users (collection st n).

Definition anonymous : Request := mkRequest None None.
Definition as_alice : Request := mkRequest (Some "Bearer alice") (Some alice).
Definition as_bob : Request := mkRequest (Some "Bearer bob") (Some bob).

Definition page_query (page limit : Z) : Query :=
  mkQuery (Some page) (Some limit) None None None.

(** [n] copies of a word, separated by single spaces. *)
Fixpoint repeat_word (n : nat) : string :=
  match n with
  | O => ""
  | S O => "word"
  | S n' => "word " +:+ repeat_word n'
  end.

Definition new_post (content : string) : Body :=
  mkBody (Some "A sample title") (Some content) (Some "A sample excerpt")
         (Some "Other") (Some []) None None None None None.

Definition status_patch (s : string) : Body :=
  mkBody None None None None None None None (Some s) None None.

Definition content_patch (content : string) : Body :=
  mkBody None (Some content) None None None None None None None None.

(** The page lengths and the page count of a listing. *)
Definition page_length (r : Response) : option nat :=
  match payload r with
  | Listing blogs _ _ _ => Some (length blogs)
  | _ => None
  end.

Definition page_count (r : Response) : option JS.Number :=
  match payload r with
  | Listing _ totalPages _ _ => Some totalPages
  | _ => None
  end.

Definition saved_readTime (r : Response) : option Z :=
  match payload r with
  | Saved _ blog => Some (readTime blog)
  | _ => None
  end.

(** An administrator, and the stores with her. *)
Definition carol : User := mkUser 3%N "carol" "Carol" "admin" [] [].

Definition admin_verify (t : string) : VerifyResult :=
  if String.eqb t "carol"
  then Decoded (mkPayload (Some 3%N) (Some 0) (Some 10))
  else sample_verify t.

Definition admin_store : State :=
  mkState {["carol"]} (<[3%N := carol]> sample_users) ∅.

(** A media host that stores everything and destroys nothing. *)
Definition sample_upload (path folder resource_type : string)
  : option Cloudinary.UploadResult :=
  Some (Cloudinary.mkUploadResult ("https://host/" +:+ folder) folder "bin" 1
                                  (Some 3)).

Definition failing_destroy (public_id resource_type : string) : option string :=
  None.

Definition photo (size : Z) : Upload.File :=
  Upload.mkFile "image/png" size "/tmp/photo".

Definition clip (size : Z) : Upload.File :=
  Upload.mkFile "video/mp4" size "/tmp/clip".

(** Ids in text: 24 hexadecimal digits in lower case, as the driver prints
    them, and read back from digits of either case.  Ids beyond 96 bits,
    which no store holds, take more digits. *)
Fixpoint zeros (n : nat) : string :=
  match n with
  | O => ""
  | S n' => String "0" (zeros n')
  end.

Definition digits (i : ObjectId) : string :=
  match i with
  | N0 => ""
  | Npos p => HexString.Raw.of_pos p ""
  end.

Definition hex (i : ObjectId) : string :=
  zeros (24 - String.length (digits i)) +:+ digits i.

Fixpoint all_hex (s : string) : bool :=
  match s with
  | EmptyString => true
  | String c s' =>
      match HexString.ascii_to_digit c with
      | Some _ => all_hex s'
      | None => false
      end
  end.

Definition unhex (s : string) : option ObjectId :=
  if (24 <=? String.length s)%nat && all_hex s
  then Some (HexString.Raw.to_N s 0%N) else None.

(** Ann follows Ben; their ids have letters among their digits. *)
Definition ann : User := mkUser 0xab%N "ann" "Ann" "user" [] [0xcd%N].
Definition ben : User := mkUser 0xcd%N "ben" "Ben" "user" [0xab%N] [].

Definition friends : State :=
  mkState ∅ (<[0xab%N := ann]> (<[0xcd%N := ben]> ∅)) ∅.

Definition as_ann : Request := mkRequest (Some "Bearer ann") (Some ann).

(** The relation lists of a stored user. *)
Definition lists (st : State) (id : ObjectId)
  : option (list ObjectId * list ObjectId) :=
  (fun u => (following u, followers u)) <$> users st !! id.

(** The stores of a service where Dave and Erin do not follow each other. *)
Definition dave : User := mkUser 1%N "dave" "Dave" "user" [] [].
Definition erin : User := mkUser 2%N "erin" "Erin" "user" [] [].

Definition strangers : State :=
  mkState ∅ (<[1%N := dave]> (<[2%N := erin]> ∅)) ∅.

Definition as_dave : Request := mkRequest (Some "Bearer alice") (Some dave).

(** A body that asks for publication, and a day of the service: user 1
    publishes post 7, user 2 reads it, likes it and comments on it, a
    visitor reads it, user 2 unfollows and follows user 1, and user 1
    retracts the post. *)
Definition published_post : Body :=
  mkBody (Some "A sample title") (Some "Some sample content")
         (Some "A sample excerpt") (Some "Other") (Some []) None None
         (Some "published") None None.

Definition sample_day : list (option string * Api.Call) :=
  [(Some "Bearer alice", Api.CreateBlog 5 7%N published_post);
   (Some "Bearer bob", Api.GetBlog 7%N);
   (Some "Bearer bob", Api.LikeBlog 7%N);
   (Some "Bearer bob", Api.AddComment 6 7%N (Some "Well said"));
   (None, Api.GetBlog 7%N);
   (Some "Bearer bob", Api.Unfollow (hex 1%N));
   (Some "Bearer bob", Api.Follow (hex 1%N));
   (Some "Bearer alice", Api.UpdateBlog 9 7%N (status_patch "draft"))].

(** Stores without posts where nobody follows anybody. *)
Definition fresh : State := strangers.

(** A query for a page of ten. *)
Definition tens (page : Z) : Query := page_query page 10.

End Examples.

(** * Properties *)

Import Model Store Http Auth Terms.

(** ** Arrays of identifiers *)
Section Arrays.
Implicit Types (u v : ObjectId) (l : list ObjectId).

Lemma indexOf_None u l : JS.indexOf u l = None <-> u ∉ l.
Proof.
  induction l as [|x l IH]; simpl.
  - split; [intros _; apply not_elem_of_nil | done].
  - destruct (N.eqb_spec x u) as [->|Hne].
    + split; [done | intros H; exfalso; apply H; left].
    + rewrite not_elem_of_cons. destruct (JS.indexOf u l); simpl.
      * split; [done | intros [_ H]; apply IH in H; done].
      * split; [intros _; split; [congruence | by apply IH] | done].
Qed.

Lemma includes_spec u l : JS.includes u l = true <-> u ∈ l.
Proof.
  unfold JS.includes. rewrite bool_decide_eq_true.
  destruct (JS.indexOf u l) eqn:E.
  - split; [intros _ | by eauto].
    destruct (decide (u ∈ l)) as [|Hn]; [done|].
    apply indexOf_None in Hn. congruence.
  - split; [intros [? ?]; done | intros H].
    apply indexOf_None in E. done.
Qed.

Lemma includes_false u l : JS.includes u l = false <-> u ∉ l.
Proof.
  rewrite <- includes_spec. destruct (JS.includes u l); split; congruence.
Qed.

(** [indexOf] finds the first occurrence: the list splits around it. *)
Lemma indexOf_Some u l i :
  JS.indexOf u l = Some i ->
  exists l1 l2, l = l1 ++ u :: l2 /\ length l1 = i /\ u ∉ l1.
Proof.
  revert i. induction l as [|x l IH]; simpl; intros i H; [done|].
  destruct (N.eqb_spec x u) as [->|Hne].
  - inversion H; subst. exists [], l. split_and!; [done | done | apply not_elem_of_nil].
  - destruct (JS.indexOf u l) as [j|] eqn:E; simpl in H; [|done].
    inversion H; subst. destruct (IH j eq_refl) as (l1 & l2 & -> & Hlen & Hni).
    exists (x :: l1), l2. split_and!; [done | simpl; lia |].
    rewrite not_elem_of_cons. split; [congruence | done].
Qed.

Lemma splice1_middle l1 l2 u :
  JS.splice1 (length l1) (l1 ++ u :: l2) = l1 ++ l2.
Proof.
  unfold JS.splice1. rewrite take_app_length.
  replace (S (length l1)) with (length (l1 ++ [u])) by (rewrite length_app; simpl; lia).
  replace (l1 ++ u :: l2) with ((l1 ++ [u]) ++ l2) by (by rewrite <- app_assoc).
  by rewrite drop_app_length.
Qed.

Lemma indexOf_push u l : u ∉ l -> JS.indexOf u (l ++ [u]) = Some (length l).
Proof.
  induction l as [|x l IH]; simpl; intros Hni.
  - by rewrite N.eqb_refl.
  - apply not_elem_of_cons in Hni as [Hne Hni].
    destruct (N.eqb_spec x u); [congruence|]. by rewrite IH.
Qed.

End Arrays.

(** ** Likes *)
Section Likes.
Implicit Types (b : Blog) (u v : ObjectId).

Lemma toggleLike_absent b u :
  u ∉ likes b -> likes (toggleLike u b) = likes b ++ [u].
Proof.
  intros H. apply indexOf_None in H. unfold toggleLike. by rewrite H.
Qed.

Lemma toggleLike_present b u :
  u ∈ likes b ->
  exists l1 l2, likes b = l1 ++ u :: l2 /\ (u ∉ l1)
                /\ likes (toggleLike u b) = l1 ++ l2.
Proof.
  intros H. unfold toggleLike.
  destruct (JS.indexOf u (likes b)) as [i|] eqn:E.
  - destruct (indexOf_Some _ _ _ E) as (l1 & l2 & Hl & <- & Hni).
    exists l1, l2. split_and!; [done | done |].
    simpl. rewrite Hl. apply splice1_middle.
  - apply indexOf_None in E. done.
Qed.

(** The like list starts empty and [toggleLike] is its only writer, so it
    never holds an identity twice. *)
Lemma toggleLike_NoDup b u : NoDup (likes b) -> NoDup (likes (toggleLike u b)).
Proof.
  intros Hnd. destruct (decide (u ∈ likes b)) as [Hin|Hni].
  - destruct (toggleLike_present b u Hin) as (l1 & l2 & Hl & _ & ->).
    rewrite Hl in Hnd. apply NoDup_app in Hnd as (H1 & H12 & H2).
    apply NoDup_cons in H2 as [_ H2]. apply NoDup_app. split_and!; [done | | done].
    intros x Hx Hx2. apply (H12 x Hx). by right.
  - rewrite toggleLike_absent by done.
    apply NoDup_app. split_and!; [done | | apply NoDup_singleton].
    intros x Hx Hx'. apply list_elem_of_singleton in Hx'. by subst.
Qed.

Lemma toggleLike_other_fields b u :
  set_likes (likes b) (toggleLike u b) = b.
Proof. unfold toggleLike. destruct (JS.indexOf u (likes b)); by destruct b. Qed.

(** C2. Two successive [toggleLike] calls by the same identity give back
    the like set the post had: the likes are a rearrangement of the
    original ones, so the membership of every identity and the like count
    are restored, and no other field of the post has changed. *)
Theorem toggleLike_twice_restores b u :
  NoDup (likes b) ->
  let b2 := toggleLike u (toggleLike u b) in
  likes b2 ≡ₚ likes b
  /\ JS.includes u (likes b2) = JS.includes u (likes b)
  /\ (forall v, v ∈ likes b2 <-> v ∈ likes b)
  /\ likeCount b2 = likeCount b
  /\ set_likes (likes b) b2 = b.
Proof.
  intros Hnd b2.
  assert (Hperm : likes b2 ≡ₚ likes b).
  { subst b2. destruct (decide (u ∈ likes b)) as [Hin|Hni].
    - destruct (toggleLike_present b u Hin) as (l1 & l2 & Hl & Hn1 & Ht).
      assert (Hn : u ∉ likes (toggleLike u b)).
      { rewrite Ht. rewrite Hl in Hnd.
        apply NoDup_app in Hnd as (_ & H12 & H2).
        apply NoDup_cons in H2 as [Hn2 _].
        rewrite elem_of_app. intros [?|?]; done. }
      rewrite (toggleLike_absent _ _ Hn), Ht, Hl.
      rewrite <- app_assoc. apply Permutation_app_head.
      symmetry. apply Permutation_cons_append.
    - assert (Hin : u ∈ likes (toggleLike u b)).
      { rewrite toggleLike_absent by done. rewrite elem_of_app. right. left. }
      destruct (toggleLike_present _ u Hin) as (l1 & l2 & Hl & Hn1 & ->).
      rewrite toggleLike_absent in Hl by done.
      assert (l2 = [] /\ l1 = likes b) as [-> ->].
      { destruct l2 as [|y l2] using rev_ind.
        - apply app_inj_tail in Hl as [-> _]. done.
        - exfalso. clear IHl2.
          replace (l1 ++ u :: l2 ++ [y]) with ((l1 ++ u :: l2) ++ [y]) in Hl
            by (by rewrite <- app_assoc).
          apply app_inj_tail in Hl as [Hl ->].
          apply Hni. rewrite Hl, elem_of_app. right. left. }
      by rewrite app_nil_r. }
  split_and!.
  - done.
  - destruct (JS.includes u (likes b)) eqn:E.
    + apply includes_spec. rewrite Hperm. by apply includes_spec.
    + apply includes_false. rewrite Hperm. by apply includes_false.
  - intros v. by rewrite Hperm.
  - unfold likeCount. by rewrite Hperm.
  - subst b2. rewrite <- (toggleLike_other_fields b u) at 3.
    rewrite <- (toggleLike_other_fields (toggleLike u b) u) at 2.
    by destruct (toggleLike u (toggleLike u b)).
Qed.

(** The premise of C2 cannot be dropped: [toggleLike] removes one
    occurrence only, so on a list that holds the identity twice, which no
    sequence of requests builds, two calls remove both. *)
Lemma toggleLike_twice_duplicate b u :
  likes b = [u; u] -> likes (toggleLike u (toggleLike u b)) = [].
Proof.
  intros H. unfold toggleLike. rewrite H. simpl. rewrite N.eqb_refl. simpl.
  by rewrite N.eqb_refl.
Qed.

End Likes.

(** ** Token verification *)
Section Tokens.
Variable jwt_verify : string -> VerifyResult.
Implicit Types (st : State) (req : Request) (t : string).

Lemma auth_bearer st req t :
  bearer req = Some t ->
  auth jwt_verify st req =
    if isTokenBlacklisted t st
    then (req, Responded 401 "Token has been invalidated")
    else match jwt_verify t with
         | Decoded decoded =>
             match userId decoded with
             | None => (req, Responded 401 "Invalid token: Missing user ID")
             | Some uid =>
                 match users st !! uid with
                 | None => (req, Responded 404 "User not found")
                 | Some u => (set_user u req, CalledNext)
                 end
             end
         | JsonWebTokenError => (req, Responded 401 "Invalid token.")
         | TokenExpiredError => (req, Responded 401 "Token expired.")
         | OtherError =>
             (req, Responded 500 "Server error during authentication.")
         end.
Proof.
  unfold bearer, auth. destruct (authorization req) as [h|]; [|done].
  destruct (JS.truthy h), (JS.startsWith h "Bearer "); simpl; try done.
  by intros [= <-].
Qed.

Lemma auth_no_bearer st req :
  bearer req = None ->
  auth jwt_verify st req =
    (req, Responded 401 "Access denied. No token provided.").
Proof.
  unfold bearer, auth. destruct (authorization req) as [h|]; [|done].
  by destruct (JS.truthy h), (JS.startsWith h "Bearer ").
Qed.

(** C5. Mandatory verification.  A request without a bearer token, or
    whose token is revoked, malformed or expired, is answered 401 and
    nothing is attached to it; an unrevoked token that verifies and names a
    user the store does not hold is answered 404; an unrevoked token that
    verifies and names a stored user lets the request proceed with that
    user attached. *)
Theorem auth_verdicts st req :
  (bearer req = None -> unauthenticated (auth jwt_verify st req) req)
  /\ (forall t, bearer req = Some t ->
        revoked st t \/ malformed jwt_verify t \/ expired jwt_verify t ->
        unauthenticated (auth jwt_verify st req) req)
  /\ (forall t uid, bearer req = Some t -> ~ revoked st t ->
        names jwt_verify t uid -> users st !! uid = None ->
        auth jwt_verify st req = (req, Responded 404 "User not found"))
  /\ (forall t uid u, bearer req = Some t -> ~ revoked st t ->
        names jwt_verify t uid -> users st !! uid = Some u ->
        auth jwt_verify st req = (set_user u req, CalledNext)).
Proof.
  split_and!.
  - intros H. rewrite auth_no_bearer by done. by eexists.
  - intros t Hb H. rewrite (auth_bearer _ _ _ Hb).
    unfold isTokenBlacklisted, revoked in *.
    case_bool_decide; [by eexists|].
    destruct H as [H|[[H|(p & H & Hp)]|H]]; [done | | |];
      unfold expired in *; rewrite H; [| rewrite Hp |]; by eexists.
  - intros t uid Hb Hr (p & Hv & Hp) Hu. rewrite (auth_bearer _ _ _ Hb).
    unfold isTokenBlacklisted, revoked in *.
    rewrite bool_decide_eq_false_2 by done. by rewrite Hv, Hp, Hu.
  - intros t uid u Hb Hr (p & Hv & Hp) Hu. rewrite (auth_bearer _ _ _ Hb).
    unfold isTokenBlacklisted, revoked in *.
    rewrite bool_decide_eq_false_2 by done. by rewrite Hv, Hp, Hu.
Qed.

(** The token the optional middleware reads: no [Bearer] prefix is
    required of the header. *)
Lemma optionalAuth_token st req h :
  authorization req = Some h ->
  JS.truthy (JS.remove_first "Bearer " h) = true ->
  optionalAuth jwt_verify st req =
    match jwt_verify (JS.remove_first "Bearer " h) with
    | Decoded decoded =>
        match findUser st (userId decoded) with
        | Some u => (set_user u req, CalledNext)
        | None => (req, CalledNext)
        end
    | _ => (req, CalledNext)
    end.
Proof. intros Hh Ht. unfold optionalAuth. rewrite Hh. simpl. by rewrite Ht. Qed.

Lemma optionalAuth_next st req : (optionalAuth jwt_verify st req).2 = CalledNext.
Proof.
  unfold optionalAuth. destruct (authorization req) as [h|]; simpl; [|done].
  destruct (JS.truthy _); [|done].
  destruct (jwt_verify _) as [p| | |]; try done.
  by destruct (findUser st (userId p)).
Qed.

(** C10. Optional verification never answers the request itself and does
    not depend on the revocation set: a revoked token that verifies and
    names a stored user still attaches that user, and a token that fails
    verification, or names no stored user, lets the request proceed as it
    came. *)
Theorem optionalAuth_lenient st req :
  (optionalAuth jwt_verify st req).2 = CalledNext
  /\ (forall bl, optionalAuth jwt_verify (set_blacklist bl st) req
                 = optionalAuth jwt_verify st req)
  /\ (forall h t uid u,
        authorization req = Some h -> t = JS.remove_first "Bearer " h ->
        JS.truthy t = true -> revoked st t ->
        names jwt_verify t uid -> users st !! uid = Some u ->
        optionalAuth jwt_verify st req = (set_user u req, CalledNext))
  /\ (forall h t,
        authorization req = Some h -> t = JS.remove_first "Bearer " h ->
        malformed jwt_verify t \/ expired jwt_verify t
        \/ jwt_verify t = OtherError
        \/ (exists uid, names jwt_verify t uid /\ users st !! uid = None) ->
        optionalAuth jwt_verify st req = (req, CalledNext)).
Proof.
  split_and!.
  - apply optionalAuth_next.
  - done.
  - intros h t uid u Hh -> Ht _ (p & Hv & Hp) Hu.
    rewrite (optionalAuth_token _ _ _ Hh Ht), Hv. unfold findUser.
    rewrite Hp. simpl. by rewrite Hu.
  - intros h t Hh -> H. unfold optionalAuth. rewrite Hh. simpl.
    destruct (JS.truthy _); [|done]. unfold expired in H.
    destruct H as [[H|(p & H & Hp)]|[H|[H|(uid & (p & H & Hp) & Hu)]]];
      rewrite H; try done; unfold findUser; rewrite Hp; simpl;
      [done | by rewrite Hu].
Qed.

End Tokens.

(** ** Reading one post *)
Section SingleRead.
Import BlogRoutes.
Implicit Types (st : State) (req : Request) (id : ObjectId) (P : Blog).

Lemma is_published_spec P : is_published P = true <-> published P.
Proof. unfold is_published, published. apply String.eqb_eq. Qed.

Lemma is_published_false P : is_published P = false <-> ~ published P.
Proof. unfold is_published, published. apply String.eqb_neq. Qed.

Lemma not_owner_spec req P : not_owner req P = false <-> owner req P.
Proof.
  unfold not_owner, owner, is_author. destruct (user req) as [u|].
  - rewrite negb_false_iff, N.eqb_eq. split.
    + intros H. by exists u.
    + by intros (u' & [= <-] & H).
  - split; [done | by intros (u & H & _)].
Qed.

Lemma not_owner_true req P : not_owner req P = true <-> ~ owner req P.
Proof.
  rewrite <- not_owner_spec. destruct (not_owner req P); split; congruence.
Qed.

Lemma anonymous_not_owner req P : user req = None -> ~ owner req P.
Proof. intros H (u & Hu & _). congruence. Qed.

(** C4. A post that is not published is served to its author only: any
    other viewer, anonymous or not, is answered 404 and nothing is
    written.  A published post is served to every viewer. *)
Theorem getBlog_visibility st req id P :
  blogs st !! id = Some P ->
  (~ published P -> ~ owner req P ->
     getBlog st req id = (fail 404 "Blog not found", st))
  /\ (~ published P -> owner req P ->
     getBlog st req id = (ok (Single (view req P)), st))
  /\ (published P ->
     exists v, (getBlog st req id).1 = ok (Single v) /\ _id (doc v) = _id P).
Proof.
  intros Hl. unfold getBlog. rewrite Hl. split_and!.
  - intros Hp Ho. apply is_published_false in Hp. apply not_owner_true in Ho.
    by rewrite Hp, Ho.
  - intros Hp Ho. apply is_published_false in Hp. apply not_owner_spec in Ho.
    by rewrite Hp, Ho.
  - intros Hp. apply is_published_spec in Hp. rewrite Hp. simpl.
    destruct (not_owner req P); simpl; eexists; split; done.
Qed.

(** C8. Reading a published post adds exactly one to its view counter and
    changes nothing else, unless the viewer is the author, in which case
    nothing is written; an anonymous read always counts. *)
Theorem getBlog_counts_views st req id P :
  blogs st !! id = Some P -> published P ->
  (~ owner req P ->
     getBlog st req id =
       (ok (Single (view req (set_views (views P + 1) P))),
        set_blogs (<[id := set_views (views P + 1) P]> (blogs st)) st))
  /\ (owner req P -> getBlog st req id = (ok (Single (view req P)), st))
  /\ (user req = None ->
      exists P', blogs (getBlog st req id).2 !! id = Some P'
                 /\ views P' = views P + 1).
Proof.
  intros Hl Hp. apply is_published_spec in Hp.
  assert (Hno : ~ owner req P ->
     getBlog st req id =
       (ok (Single (view req (set_views (views P + 1) P))),
        set_blogs (<[id := set_views (views P + 1) P]> (blogs st)) st)).
  { intros Ho. apply not_owner_true in Ho. unfold getBlog.
    by rewrite Hl, Hp, Ho. }
  split_and!.
  - done.
  - intros Ho. apply not_owner_spec in Ho. unfold getBlog.
    by rewrite Hl, Hp, Ho.
  - intros Hu. rewrite Hno by (by apply anonymous_not_owner).
    eexists. split; [apply lookup_insert_eq | done].
Qed.

End SingleRead.

(** ** Following *)
Section Texts.
Import UserRoutes.
Variable toString : ObjectId -> string.
Variable castId : string -> option ObjectId.
Hypothesis Hback : reads_back toString castId.
Implicit Types (i j x y : ObjectId) (l : list ObjectId) (s : string).

Lemma toString_inj i j : toString i = toString j -> i = j.
Proof.
  intros H. pose proof (Hback i) as Hi. rewrite H, Hback in Hi. congruence.
Qed.

Lemma cast_text s i j : castId s = Some i -> s = toString j -> i = j.
Proof. intros Hc ->. rewrite Hback in Hc. congruence. Qed.

Lemma includes_text_spec s l :
  includes_text toString s l = true <-> exists i, i ∈ l /\ s = toString i.
Proof.
  unfold includes_text. rewrite existsb_exists. split.
  - intros (i & Hi & He). exists i. apply String.eqb_eq in He.
    by rewrite list_elem_of_In.
  - intros (i & Hi & ->). exists i. rewrite <- list_elem_of_In.
    by rewrite String.eqb_refl.
Qed.

(** Asked with the text of an id, [includes] tells whether the id is in
    the array; asked with another text, it never finds the id the text is
    cast to unless that id is there. *)
Lemma includes_text_canonical x l :
  includes_text toString (toString x) l = true <-> x ∈ l.
Proof.
  rewrite includes_text_spec. split.
  - intros (i & Hi & He). by rewrite (toString_inj _ _ He).
  - intros H. by exists x.
Qed.

Lemma includes_text_cast s x l :
  castId s = Some x -> x ∉ l -> includes_text toString s l = false.
Proof.
  intros Hc Hn. apply not_true_is_false. rewrite includes_text_spec.
  intros (i & Hi & He). by rewrite (cast_text _ _ _ Hc He) in Hn.
Qed.

Lemma without_spec x y l :
  y ∈ without toString (toString x) l <-> y ∈ l /\ y <> x.
Proof.
  unfold without. rewrite list_elem_of_In, filter_In, <- list_elem_of_In.
  rewrite negb_true_iff, String.eqb_neq. split.
  - intros [H1 H2]. split; [done|]. by intros ->.
  - intros [H1 H2]. split; [done|]. intros He. by apply toString_inj in He.
Qed.

Lemma without_absent x l : x ∉ l -> without toString (toString x) l = l.
Proof.
  unfold without. induction l as [|y l IH]; simpl; [done|].
  intros H. apply not_elem_of_cons in H as [Hne H].
  destruct (String.eqb_spec (toString y) (toString x)) as [He|_].
  - by apply toString_inj in He.
  - simpl. by rewrite IH.
Qed.

Lemma without_snoc x l :
  x ∉ l -> without toString (toString x) (l ++ [x]) = l.
Proof.
  intros H. unfold without. rewrite List.filter_app. simpl.
  rewrite String.eqb_refl. simpl. rewrite app_nil_r. by apply without_absent.
Qed.

End Texts.

(** A text that is the text of no id is found in no array and filters
    nothing out. *)
Lemma other_text (toString : ObjectId -> string) s l :
  (forall i, s <> toString i) ->
  UserRoutes.includes_text toString s l = false
  /\ UserRoutes.without toString s l = l.
Proof.
  intros Hs. unfold UserRoutes.includes_text, UserRoutes.without.
  induction l as [|y l [IH1 IH2]]; simpl; [done|].
  destruct (String.eqb_spec s (toString y)) as [He|_]; [by destruct (Hs y)|].
  destruct (String.eqb_spec (toString y) s) as [He|_];
    [by destruct (Hs y)|].
  simpl. by rewrite IH1, IH2.
Qed.

Section Follow.
Import UserRoutes.
Variable toString : ObjectId -> string.
Variable castId : string -> option ObjectId.
Implicit Types (st : State) (req : Request) (a b : ObjectId) (s : string).

(** Asked with the text of ids as the service prints them, the guards of
    [follow] hold: when A already follows B, a further follow request of A
    for B is answered 400 ("Already following this user") and the stores
    are left as they were; a request of A to follow A is answered 400 as
    well, in every state, and writes nothing. *)
Lemma follow_again_conflict st req me :
  reads_back toString castId ->
  user req = Some me ->
  (forall A B b,
     users st !! u_id me = Some A -> users st !! b = Some B ->
     u_id me <> b -> b ∈ following A ->
     follow toString castId st req (toString b)
     = (fail 400 "Already following this user", st))
  /\ follow toString castId st req (toString (u_id me))
     = (fail 400 "You cannot follow yourself", st).
Proof.
  intros Hback Hu. unfold follow. rewrite Hu. split.
  - intros A B b HA HB Hne Hin.
    destruct (String.eqb_spec (toString (u_id me)) (toString b)) as [He|_].
    { by apply (toString_inj _ _ Hback) in He. }
    rewrite Hback, HB, HA.
    apply (includes_text_canonical _ _ Hback) in Hin. by rewrite Hin.
  - by rewrite String.eqb_refl.
Qed.

(** The guards compare texts.  A text that is cast to the id of B without
    being the text of any id passes both of them: the request is answered
    200 and both lists grow, also when B is A, and also when A follows B
    already. *)
Lemma follow_other_text st req me A B b s :
  castId s = Some b -> (forall i, s <> toString i) ->
  user req = Some me ->
  users st !! u_id me = Some A -> users st !! b = Some B ->
  follow toString castId st req s
  = (ok (Message "User followed successfully"),
     save_followers b (followers B ++ [u_id me])
       (save_following (u_id me) (following A ++ [b]) st)).
Proof.
  intros Hc Hs Hu HA HB. unfold follow. rewrite Hu.
  destruct (String.eqb_spec (toString (u_id me)) s) as [He|_].
  { by destruct (Hs (u_id me)). }
  rewrite Hc, HB, HA. by rewrite (proj1 (other_text toString s _ Hs)).
Qed.

(** X20. A first follow that succeeds records B in the following list of
    A and A in the followers list of B, whatever text of the id of B the
    request is made with. *)
Lemma follow_records st req A B me b s :
  reads_back toString castId -> castId s = Some b ->
  user req = Some me -> users st !! u_id me = Some A ->
  u_id me <> b -> users st !! b = Some B -> b ∉ following A ->
  exists st',
    follow toString castId st req s
    = (ok (Message "User followed successfully"), st')
    /\ users st' !! u_id me = Some (set_following (following A ++ [b]) A)
    /\ users st' !! b = Some (set_followers (followers B ++ [u_id me]) B).
Proof.
  intros Hback Hc Hu HA Hne HB Hni. unfold follow. rewrite Hu.
  destruct (String.eqb_spec (toString (u_id me)) s) as [He|_].
  { symmetry in He. by destruct (Hne (eq_sym (cast_text _ _ Hback _ _ _ Hc He))). }
  rewrite Hc, HB, HA.
  rewrite (includes_text_cast _ _ Hback _ _ _ Hc Hni).
  eexists. split; [done|].
  unfold save_followers, save_following. simpl. split.
  - rewrite lookup_alter_ne by done. rewrite lookup_alter_eq. by rewrite HA.
  - rewrite lookup_alter_eq. rewrite lookup_alter_ne by done. by rewrite HB.
Qed.

End Follow.

(** The sample texts of ids are read back. *)
Lemma all_hex_app s1 s2 :
  Examples.all_hex (s1 +:+ s2) = Examples.all_hex s1 && Examples.all_hex s2.
Proof.
  induction s1 as [|c s1 IH]; simpl; [done|].
  by destruct (HexString.ascii_to_digit c).
Qed.

Lemma all_hex_zeros n : Examples.all_hex (Examples.zeros n) = true.
Proof. induction n as [|n IH]; [done|]. exact IH. Qed.

Lemma all_hex_of_pos : forall (p : positive) (rest : string),
  Examples.all_hex (HexString.Raw.of_pos p rest) = Examples.all_hex rest.
Proof.
  fix IH 1. intros p rest.
  do 4 try destruct p as [p|p|]; try reflexivity;
    cbn; rewrite IH; reflexivity.
Qed.

Lemma to_N_zeros n s :
  HexString.Raw.to_N (Examples.zeros n +:+ s) 0%N = HexString.Raw.to_N s 0%N.
Proof. induction n as [|n IH]; [done|]. exact IH. Qed.

Lemma length_zeros n s :
  String.length (Examples.zeros n +:+ s) = (n + String.length s)%nat.
Proof. induction n as [|n IH]; simpl; [done | by rewrite IH]. Qed.

Lemma unhex_hex : reads_back Examples.hex Examples.unhex.
Proof.
  intros i. unfold Examples.unhex, Examples.hex.
  assert (Hl : (24 <=? String.length
                  (Examples.zeros (24 - String.length (Examples.digits i))
                   +:+ Examples.digits i))%nat = true).
  { apply Nat.leb_le. rewrite length_zeros. lia. }
  rewrite Hl, all_hex_app, all_hex_zeros, to_N_zeros. simpl.
  destruct i as [|p]; simpl; [done|].
  by rewrite all_hex_of_pos, HexString.Raw.to_N_of_pos.
Qed.

(** C7, on a request whose URL spells an id in upper case.  Ann follows
    Ben.  Asked with the ids as the service prints them, [follow] refuses
    a second follow of Ben and a follow of Ann herself, with 400 and
    without a write.  Asked with the same ids in upper case, which
    [findById] and [push] read as the same ids, both guards let the
    request through, because they compare the text of the URL with the
    lower-case text of the ids: the second follow of Ben is answered 200
    and Ben is twice in the following list of Ann, as Ann is twice among
    the followers of Ben; and Ann follows herself. *)
Theorem follow_guards_compare_text :
  let follow := UserRoutes.follow Examples.hex Examples.unhex in
  let followed := ok (Message "User followed successfully") in
  Examples.hex 0xab%N = "0000000000000000000000ab"
  /\ Examples.hex 0xcd%N = "0000000000000000000000cd"
  /\ Examples.unhex "0000000000000000000000AB" = Some 0xab%N
  /\ Examples.unhex "0000000000000000000000CD" = Some 0xcd%N
  /\ follow Examples.friends Examples.as_ann "0000000000000000000000cd"
     = (fail 400 "Already following this user", Examples.friends)
  /\ follow Examples.friends Examples.as_ann "0000000000000000000000ab"
     = (fail 400 "You cannot follow yourself", Examples.friends)
  /\ (follow Examples.friends Examples.as_ann "0000000000000000000000CD").1
     = followed
  /\ Examples.lists
       (follow Examples.friends Examples.as_ann "0000000000000000000000CD").2
       0xab%N
     = Some ([0xcd%N; 0xcd%N], [])
  /\ Examples.lists
       (follow Examples.friends Examples.as_ann "0000000000000000000000CD").2
       0xcd%N
     = Some ([], [0xab%N; 0xab%N])
  /\ (follow Examples.friends Examples.as_ann "0000000000000000000000AB").1
     = followed
  /\ Examples.lists
       (follow Examples.friends Examples.as_ann "0000000000000000000000AB").2
       0xab%N
     = Some ([0xcd%N; 0xab%N], [0xab%N]).
Proof. vm_compute. repeat split. Qed.

(** ** Updating a post *)
Section Update.
Import BlogRoutes.
Variable runValidators : Patch -> bool.
Implicit Types (st : State) (req : Request) (id : ObjectId) (P : Blog).

Lemma check_nil {A} optional (field : option A) okb msg v :
  check optional field okb msg = [] -> field = Some v -> okb v = true.
Proof.
  intros H ->. simpl in H. by destruct (okb v).
Qed.

(** A body that passes the chain of [PUT /:id] carries no status, or one
    of ['draft'] and ['published']. *)
Lemma validate_update_status updates s :
  validate_update updates = [] -> b_status updates = Some s ->
  s = "draft" \/ s = "published".
Proof.
  unfold validate_update. intros H Hs.
  repeat (apply app_eq_nil in H as [_ H]).
  apply (check_nil _ _ _ _ _ H) in Hs. unfold isIn in Hs.
  apply bool_decide_eq_true in Hs.
  apply elem_of_cons in Hs as [->|Hs]; [by left|].
  apply elem_of_cons in Hs as [->|Hs]; [by right|].
  by apply elem_of_nil in Hs.
Qed.

Lemma finalUpdates_status now P updates :
  p_status (finalUpdates now P updates) = b_status updates.
Proof.
  unfold finalUpdates, stamp_readTime, stamp_publication.
  set (f := filteredUpdates updates).
  assert (p_status f = b_status updates) as <- by done.
  repeat case_match; done.
Qed.

Lemma finalUpdates_publishedAt now P updates :
  p_publishedAt (finalUpdates now P updates) =
    if bool_decide (b_status updates = Some "published")
       && negb (is_published P)
    then Some (Some now)
    else if bool_decide (b_status updates = Some "draft")
    then Some None else None.
Proof.
  unfold finalUpdates, stamp_readTime, stamp_publication.
  set (f := filteredUpdates updates).
  change (p_status f) with (b_status updates).
  destruct (bool_decide (b_status updates = Some "published")
            && negb (is_published P)).
  - repeat case_match; done.
  - destruct (bool_decide (b_status updates = Some "draft"));
      repeat case_match; done.
Qed.

(** An update by the author that passes both validations is applied: the
    stored post becomes the old one patched. *)
Lemma updateBlog_applied now st req id updates P u :
  blogs st !! id = Some P -> user req = Some u -> u_id u = author P ->
  validate_update updates = [] ->
  runValidators (finalUpdates now P updates) = true ->
  let P' := apply_patch (finalUpdates now P updates) P in
  exists destroyed,
    updateBlog runValidators now st req id updates =
      (ok (Saved "Blog updated successfully" P'),
       set_blogs (<[id := P']> (blogs st)) st, destroyed).
Proof.
  intros Hl Hu Ho Hv Hr P'. unfold updateBlog. rewrite Hv, Hl, Hu.
  unfold is_author. rewrite <- Ho, N.eqb_refl. simpl. rewrite Hr.
  by eexists.
Qed.

(** C1. For an update by the author that is applied: a patch with status
    ['published'] on a post that is not published stamps [publishedAt]
    with the current time; on a post that is already published it leaves
    [publishedAt] as it was; a patch with status ['draft'] sets
    [publishedAt] to null. *)
Theorem updateBlog_publishedAt now st req id updates P u :
  blogs st !! id = Some P -> user req = Some u -> u_id u = author P ->
  validate_update updates = [] ->
  runValidators (finalUpdates now P updates) = true ->
  exists P' destroyed,
    updateBlog runValidators now st req id updates =
      (ok (Saved "Blog updated successfully" P'),
       set_blogs (<[id := P']> (blogs st)) st, destroyed)
    /\ (b_status updates = Some "published" -> ~ published P ->
        publishedAt P' = Some now /\ published P')
    /\ (b_status updates = Some "published" -> published P ->
        publishedAt P' = publishedAt P /\ published P')
    /\ (b_status updates = Some "draft" -> publishedAt P' = None).
Proof.
  intros Hl Hu Ho Hv Hr.
  destruct (updateBlog_applied now st req id updates P u Hl Hu Ho Hv Hr)
    as (destroyed & Heq).
  eexists _, destroyed. split; [exact Heq|].
  unfold published. simpl.
  rewrite finalUpdates_publishedAt, finalUpdates_status. split_and!.
  - intros Hs Hp. apply is_published_false in Hp.
    rewrite Hs, Hp. by repeat case_bool_decide.
  - intros Hs Hp. apply is_published_spec in Hp.
    rewrite Hs, Hp. by repeat case_bool_decide.
  - intros Hs. rewrite Hs. by repeat case_bool_decide.
Qed.

Lemma updateBlog_state now st req id updates :
  (updateBlog runValidators now st req id updates).1.2 = st
  \/ exists P u,
       blogs st !! id = Some P /\ user req = Some u
       /\ validate_update updates = []
       /\ (updateBlog runValidators now st req id updates).1.2 =
            set_blogs (<[id := apply_patch (finalUpdates now P updates) P]>
                         (blogs st)) st.
Proof.
  unfold updateBlog.
  destruct (validate_update updates) eqn:Hv; [|by left].
  destruct (blogs st !! id) as [P|] eqn:Hl; [|by left].
  destruct (user req) as [u|] eqn:Hu; [|by left].
  destruct (negb (is_author u P)); [by left|]. simpl.
  destruct (runValidators _); [|by left].
  right. by exists P, u.
Qed.

(** C9. A patch whose status is ['archived'] fails the validation chain:
    the answer is 400 with "Invalid status", nothing is written and no
    asset is destroyed, although the schema lists ['archived'] among the
    statuses.  Hence whatever the update request, a post that is archived
    afterwards was already archived before. *)
Theorem updateBlog_never_archives now st req id updates :
  "archived" ∈ statuses
  /\ (b_status updates = Some "archived" ->
      exists errors,
        updateBlog runValidators now st req id updates =
          (mkResponse 400 (Errors errors), st, [])
        /\ "Invalid status" ∈ errors)
  /\ (forall id' P',
        blogs (updateBlog runValidators now st req id updates).1.2 !! id'
          = Some P' ->
        status P' = "archived" ->
        exists P, blogs st !! id' = Some P /\ status P = "archived").
Proof.
  split_and!.
  - unfold statuses. set_solver.
  - intros Hs.
    assert (Hin : "Invalid status" ∈ validate_update updates).
    { unfold validate_update, validate_status. rewrite Hs. simpl.
      rewrite !elem_of_app. do 3 right. left. }
    unfold updateBlog. destruct (validate_update updates) as [|e errs].
    + by apply elem_of_nil in Hin.
    + by eexists.
  - intros id' P' Hl' Ha.
    destruct (updateBlog_state now st req id updates)
      as [Heq|(P & u & Hl & Hu & Hv & Heq)]; rewrite Heq in Hl';
      [by exists P'|].
    simpl in Hl'. destruct (decide (id = id')) as [<-|Hne].
    + rewrite lookup_insert_eq in Hl'. injection Hl' as <-.
      exists P. split; [done|]. simpl in Ha.
      rewrite finalUpdates_status in Ha.
      destruct (b_status updates) as [s|] eqn:Hs; [|done]. simpl in Ha.
      destruct (validate_update_status _ _ Hv Hs); congruence.
    + rewrite lookup_insert_ne in Hl' by done. by exists P'.
Qed.

End Update.

(** ** Read time *)
Section ReadTime.
Import BlogRoutes Examples.
Implicit Types (s : string) (cur : list ascii).

Lemma ends_with_ws_cons c s :
  ends_with_ws (String c s) =
    if JS.is_whitespace c then trailing_empty s else ends_with_ws s.
Proof. destruct s; simpl; by destruct (JS.is_whitespace c). Qed.

Lemma truthy_piece cur :
  JS.truthy (string_of_list_ascii (rev cur)) = true <-> cur <> [].
Proof.
  destruct cur as [|c cur]; simpl; [done|].
  destruct (rev cur) as [|d l] eqn:E; simpl; done.
Qed.

Lemma truthy_piece_nonempty c cur :
  JS.truthy (string_of_list_ascii (rev (c :: cur))) = true.
Proof. by apply truthy_piece. Qed.

(** The words are the pieces of [split] that are not empty. *)
Lemma words_from_split s cur in_run :
  (in_run = true -> cur = []) ->
  words_from s cur = List.filter JS.truthy (JS.split_ws_from s cur in_run).
Proof.
  revert cur in_run. induction s as [|a s IH]; intros cur in_run Hrun.
  - cbn [words_from JS.split_ws_from List.filter].
    destruct cur as [|c cur]; [done|]. by rewrite truthy_piece_nonempty.
  - cbn [words_from JS.split_ws_from]. destruct (JS.is_whitespace a).
    + destruct in_run.
      * rewrite (Hrun eq_refl). by apply IH.
      * cbn [List.filter]. destruct cur as [|c cur].
        -- simpl. by apply IH.
        -- rewrite truthy_piece_nonempty. f_equal. by apply IH.
    + by apply IH.
Qed.

Lemma words_split s : words s = List.filter JS.truthy (JS.split_ws s).
Proof. by apply words_from_split. Qed.

(** The pieces of [split] beyond the words: one for a trailing run of
    whitespace, whatever the piece being read. *)
Lemma split_ws_from_pieces s :
  (forall c cur,
     length (JS.split_ws_from s (c :: cur) false) =
       (length (List.filter JS.truthy (JS.split_ws_from s (c :: cur) false))
        + Nat.b2n (ends_with_ws s))%nat)
  /\ length (JS.split_ws_from s [] true) =
       (length (List.filter JS.truthy (JS.split_ws_from s [] true))
        + Nat.b2n (trailing_empty s))%nat.
Proof.
  induction s as [|a s [IH1 IH2]].
  - split; [intros c cur|]; cbn [JS.split_ws_from List.filter].
    + by rewrite truthy_piece_nonempty.
    + done.
  - split; [intros c cur|]; cbn [JS.split_ws_from trailing_empty];
      rewrite ends_with_ws_cons; destruct (JS.is_whitespace a).
    + cbn [List.filter]. rewrite truthy_piece_nonempty. simpl.
      by rewrite IH2.
    + apply IH1.
    + apply IH2.
    + apply IH1.
Qed.

(** What [split] counts: the words, and one more piece for whitespace at
    the start and at the end of the body. *)
Lemma wordCount_words s :
  s <> "" ->
  wordCount s =
    Z.of_nat (length (words s))
    + Z.b2z (starts_with_ws s) + Z.b2z (ends_with_ws s).
Proof.
  intros Hs. rewrite words_split. unfold wordCount, JS.split_ws.
  destruct s as [|a s]; [done|]. clear Hs.
  destruct (split_ws_from_pieces s) as [H1 H2].
  cbn [JS.split_ws_from starts_with_ws]. rewrite ends_with_ws_cons.
  destruct (JS.is_whitespace a).
  - cbn [List.filter rev string_of_list_ascii JS.truthy length].
    rewrite H2. destruct (trailing_empty s); simpl; lia.
  - rewrite H1. destruct (ends_with_ws s); simpl; lia.
Qed.

Lemma wordCount_pos s : 1 <= wordCount s.
Proof.
  unfold wordCount, JS.split_ws. generalize (@nil ascii) false.
  induction s as [|a s IH]; intros cur r; cbn [JS.split_ws_from].
  - simpl. lia.
  - destruct (JS.is_whitespace a); [destruct r|]; try apply IH.
    cbn [length]. lia.
Qed.

Lemma ceil_quot_200 n : 1 <= n -> 1 <= JS.ceil_quot n 200.
Proof.
  intros H. unfold JS.ceil_quot.
  assert (- n / 200 < 0) by (apply Z.div_lt_upper_bound; lia). lia.
Qed.

(** The stored estimate is never below one minute. *)
Lemma readTimeOf_min s : 1 <= readTimeOf s.
Proof. apply ceil_quot_200, wordCount_pos. Qed.

(** X23. On a body that neither starts nor ends with whitespace the
    handlers compute the read time of the specification. *)
Lemma readTimeOf_unpadded s :
  s <> "" -> starts_with_ws s = false -> ends_with_ws s = false ->
  readTimeOf s = readTime_spec s.
Proof.
  intros Hs H1 H2. pose proof (wordCount_words s Hs) as Hw.
  pose proof (readTimeOf_min s) as Hm.
  rewrite H1, H2 in Hw. simpl in Hw. unfold readTime_spec, readTimeOf in *.
  rewrite Z.add_0_r, Z.add_0_r in Hw. rewrite <- Hw. lia.
Qed.

(** [POST /] stores the estimate computed from the body. *)
Lemma createBlog_readTime now newId st req body r st' blog msg :
  createBlog now newId st req body = (r, st') ->
  payload r = Saved msg blog ->
  exists content, b_content body = Some content
                  /\ readTime blog = readTimeOf content.
Proof.
  unfold createBlog. intros H Hp.
  destruct (validate_create body); [|by inversion H; subst].
  destruct (b_content body) as [content|]; [|by inversion H; subst].
  destruct (user req) as [u|]; [|by inversion H; subst].
  exists content. split; [done|].
  destruct (_ && _); inversion H; subst; simpl in Hp; [|done].
  by inversion Hp.
Qed.

(** [PUT /:id] stores the estimate computed from the new body, when the
    patch carries one. *)
Lemma updateBlog_readTime rv now st req id updates P u content :
  blogs st !! id = Some P -> user req = Some u -> u_id u = author P ->
  validate_update updates = [] -> rv (finalUpdates now P updates) = true ->
  b_content updates = Some content ->
  exists P', blogs (updateBlog rv now st req id updates).1.2 !! id
             = Some P'
             /\ readTime P' = readTimeOf content.
Proof.
  intros Hl Hu Ho Hv Hr Hc.
  destruct (updateBlog_applied rv now st req id updates P u
              Hl Hu Ho Hv Hr) as (destroyed & ->).
  eexists. split; [apply lookup_insert_eq|]. simpl.
  assert (Ht : JS.truthy content = true).
  { unfold validate_update, validate_fields in Hv.
    apply app_eq_nil in Hv as [Hv _]. apply app_eq_nil in Hv as [_ Hv].
    apply app_eq_nil in Hv as [Hv _].
    apply (check_nil _ _ _ _ _ Hv) in Hc. by destruct content. }
  unfold finalUpdates, stamp_readTime.
  replace (p_content (stamp_publication now P (filteredUpdates updates)))
    with (Some content).
  - by rewrite Ht.
  - unfold stamp_publication. by repeat case_match.
Qed.

(** C6, on a body that ends with whitespace.  A body of exactly 400 words
    followed by one space has read time 2 by the specification; both
    [POST /] and [PUT /:id] store 3, because [split] counts the empty
    piece after the trailing space as a word.  Without the space they
    store 2, and 1 for 199 words. *)
Theorem readTime_trailing_space :
  let body := repeat_word 400 +:+ " " in
  length (words body) = 400%nat
  /\ readTime_spec body = 2
  /\ saved_readTime
       (createBlog 5 7%N (store "draft" 2) as_alice (new_post body)).1
     = Some 3
  /\ saved_readTime
       (updateBlog accept_all 5 (store "draft" 2) as_alice 1%N
                   (content_patch body)).1.1
     = Some 3
  /\ saved_readTime
       (createBlog 5 7%N (store "draft" 2) as_alice
                   (new_post (repeat_word 400))).1
     = Some 2
  /\ saved_readTime
       (createBlog 5 7%N (store "draft" 2) as_alice
                   (new_post (repeat_word 199))).1
     = Some 1.
Proof. vm_compute. repeat split. Qed.

End ReadTime.

(** ** Listing published posts *)
Section Listing.
Import BlogRoutes Examples.
Variable regex_i : string -> option (string -> bool).
Variable sort_docs : SortOptions -> list Blog -> list Blog.
Hypothesis sort_docs_perm : forall o l, sort_docs o l ≡ₚ l.
Implicit Types (st : State) (req : Request) (q : Query).

Lemma find_published f st b : b ∈ find f st -> published b.
Proof.
  unfold find. rewrite list_elem_of_In, filter_In. intros [_ H].
  unfold matches in H. apply andb_prop in H as [H _].
  apply andb_prop in H as [H _]. by apply is_published_spec.
Qed.

Lemma pageSize_range q : 1 <= pageSize q <= 100.
Proof. unfold pageSize. lia. Qed.

Lemma pageNumber_min q : 1 <= pageNumber q.
Proof. unfold pageNumber. lia. Qed.

(** X22. The page of a listing: the matching published posts in the order
    of the sort key, without the first [(p - 1) * s], cut after [s]; and
    the count of all the matching posts.  No post that is not published is
    ever listed.  The page count is computed from the requested [limit],
    not from [s]. *)
Lemma getBlogs_page st req q re :
  search_filter regex_i (q_search q) = Some re ->
  let query := mkFilter (category_filter (q_category q)) re in
  let s := pageSize q in
  let skip := (pageNumber q - 1) * s in
  let total := countDocuments query st in
  let page := take (Z.to_nat s)
                (drop (Z.to_nat skip)
                   (sort_docs (sortOptions (q_sort q)) (find query st))) in
  getBlogs regex_i sort_docs st req q =
    ok (Listing (view req <$> page)
                (JS.ceil_div total (default 10 (q_limit q)))
                (default 1 (q_page q)) total)
  /\ Z.of_nat (length page) = Z.max 0 (Z.min s (total - skip))
  /\ Forall published page.
Proof.
  intros Hre query s skip total page. split_and!.
  - unfold getBlogs. by rewrite Hre.
  - subst page total. unfold countDocuments.
    rewrite length_take, length_drop, sort_docs_perm.
    pose proof (pageSize_range q). pose proof (pageNumber_min q).
    assert (0 <= skip) by (subst skip s; nia). fold s in H. lia.
  - apply Forall_forall. intros b Hb. subst page.
    apply subseteq_take, subseteq_drop in Hb.
    rewrite sort_docs_perm in Hb. by apply find_published in Hb.
Qed.

(** When the requested [limit] is within 1..100, or absent, the page count
    is the one of the page size. *)
Lemma ceil_div_pageSize q total :
  match q_limit q with Some l => 1 <= l <= 100 | None => True end ->
  JS.ceil_div total (default 10 (q_limit q))
  = JS.Int (JS.ceil_quot total (pageSize q)).
Proof.
  intros H. unfold JS.ceil_div, pageSize.
  destruct (q_limit q) as [l|]; simpl.
  - destruct (Z.eqb_spec l 0); [lia|]. do 2 f_equal. lia.
  - done.
Qed.

End Listing.

(** The sample order is an order of the documents it is given. *)
Lemma sample_sort_perm o l : Examples.sample_sort o l ≡ₚ l.
Proof.
  assert (Hins : forall b l', Examples.insert_sorted o b l' ≡ₚ b :: l').
  { intros b l'. induction l' as [|x l' IH]; simpl; [done|].
    destruct (_ <? _); [done|]. rewrite IH. apply Permutation_swap. }
  induction l as [|b l IH]; simpl; [done|]. by rewrite Hins, IH.
Qed.

(** C3, on a request whose [limit] is out of range.  Over 101 published
    posts, a request for page 1 with [limit=200] gets a page of 100 posts,
    the page size being clamped to 100, and a total of 101; the page count
    it gets is [ceil(101 / 200) = 1] and not [ceil(101 / 100) = 2], because
    the handler divides by the requested limit.  With [limit=0] the page
    count is not even a number.  With a limit within range, as for 25 posts
    at page size 10, the pages have 10, 10 and 5 posts and the count is 3. *)
Theorem getBlogs_totalPages_unclamped :
  let get := BlogRoutes.getBlogs Examples.sample_regex Examples.sample_sort in
  let posts n := Examples.store "published" n in
  let q := Examples.page_query in
  pageSize (q 1 200) = 100
  /\ Examples.page_length (get (posts 101%nat) Examples.anonymous (q 1 200))
     = Some 100%nat
  /\ Examples.page_count (get (posts 101%nat) Examples.anonymous (q 1 200))
     = Some (JS.Int 1)
  /\ JS.ceil_div 101 (pageSize (q 1 200)) = JS.Int 2
  /\ Examples.page_count (get (posts 3%nat) Examples.anonymous (q 1 0))
     = Some JS.Infinity
  /\ (fun p => Examples.page_length
                 (get (posts 25%nat) Examples.anonymous (q p 10)))
       <$> [1; 2; 3; 4]
     = [Some 10%nat; Some 10%nat; Some 5%nat; Some 0%nat]
  /\ Examples.page_count (get (posts 25%nat) Examples.anonymous (q 3 10))
     = Some (JS.Int 3).
Proof. vm_compute. repeat split. Qed.

(** ** The like lists of stored posts *)
Section LikeSets.
Import BlogRoutes.
Variable runValidators : Patch -> bool.
Implicit Types (st : State) (req : Request) (id : ObjectId).

Lemma likes_are_sets_insert st id b :
  likes_are_sets st -> NoDup (likes b) ->
  likes_are_sets (set_blogs (<[id := b]> (blogs st)) st).
Proof.
  intros Hst Hb id' b'. simpl. destruct (decide (id = id')) as [<-|Hne].
  - rewrite lookup_insert_eq. by intros [= <-].
  - rewrite lookup_insert_ne by done. apply Hst.
Qed.

Lemma createBlog_likes now newId st req body :
  likes_are_sets st -> likes_are_sets (createBlog now newId st req body).2.
Proof.
  intros Hst. unfold createBlog.
  destruct (validate_create body); [|done].
  destruct (b_content body); [|done]. destruct (user req); [|done].
  destruct (_ && _); [|done].
  apply likes_are_sets_insert; [done | apply NoDup_nil_2].
Qed.

Lemma updateBlog_likes now st req id updates :
  likes_are_sets st ->
  likes_are_sets (updateBlog runValidators now st req id updates).1.2.
Proof.
  intros Hst.
  destruct (updateBlog_state runValidators now st req id updates)
    as [->|(P & u & Hl & _ & _ & ->)]; [done|].
  apply likes_are_sets_insert; [done|]. simpl. by apply (Hst id).
Qed.

Lemma getBlog_likes st req id :
  likes_are_sets st -> likes_are_sets (getBlog st req id).2.
Proof.
  intros Hst. unfold getBlog. destruct (blogs st !! id) as [P|] eqn:Hl; [|done].
  destruct (_ && _); [done|]. destruct (_ && _); [|done].
  apply likes_are_sets_insert; [done|]. simpl. by apply (Hst id).
Qed.

Lemma likeBlog_likes st req id :
  likes_are_sets st -> likes_are_sets (likeBlog st req id).2.
Proof.
  intros Hst. unfold likeBlog. destruct (blogs st !! id) as [P|] eqn:Hl; [|done].
  destruct (negb _); [done|]. destruct (user req); [|done].
  apply likes_are_sets_insert; [done|]. apply toggleLike_NoDup. by apply (Hst id).
Qed.

Lemma likeBlog_published st req id P u :
  blogs st !! id = Some P -> published P -> user req = Some u ->
  likeBlog st req id =
    (ok (LikeState "Like toggled successfully"
                   (JS.includes (u_id u) (likes (toggleLike (u_id u) P)))
                   (likeCount (toggleLike (u_id u) P))),
     set_blogs (<[id := toggleLike (u_id u) P]> (blogs st)) st).
Proof.
  intros Hl Hp Hu. apply is_published_spec in Hp. unfold likeBlog.
  by rewrite Hl, Hp, Hu.
Qed.

Lemma toggleLike_status u P : status (toggleLike u P) = status P.
Proof. unfold toggleLike. by destruct (JS.indexOf u (likes P)). Qed.

End LikeSets.

(** ** Logging out *)
Section Logout.
Import UserRoutes App.
Variable jwt_verify : string -> VerifyResult.

(** X21. After a logout the token of the request is in the revocation
    set: the mandatory middleware refuses it from then on, while the
    optional one still attaches the user it names. *)
Lemma logout_revokes st req t uid u :
  bearer req = Some t -> JS.truthy t = true -> ~ revoked st t ->
  names jwt_verify t uid -> users st !! uid = Some u ->
  let st' := (post_logout jwt_verify st req).2 in
  revoked st' t
  /\ unauthenticated (auth jwt_verify st' req) req
  /\ optionalAuth jwt_verify st' req = (set_user u req, CalledNext).
Proof.
  intros Hb Ht Hr (p & Hv & Hp) Hu st'.
  assert (exists h, authorization req = Some h
                    /\ t = JS.remove_first "Bearer " h) as (h & Hh & ->).
  { unfold bearer in Hb. destruct (authorization req) as [h|]; [|done].
    destruct (_ && _); [|done]. exists h. split; [done|]. by inversion Hb. }
  assert (Hfree : isTokenBlacklisted (JS.remove_first "Bearer " h) st = false)
    by (by apply bool_decide_eq_false_2).
  assert (Hst' : st' = blacklistToken (JS.remove_first "Bearer " h) st).
  { subst st'. unfold post_logout, route.
    rewrite (auth_bearer _ _ _ _ Hb), Hfree, Hv, Hp, Hu.
    unfold logout. simpl. rewrite Hh. simpl. by rewrite Ht. }
  assert (Hrev : revoked st' (JS.remove_first "Bearer " h)).
  { rewrite Hst'. unfold revoked, blacklistToken. simpl. set_solver. }
  split; [done|]. split.
  - rewrite (auth_bearer _ _ _ _ Hb). unfold isTokenBlacklisted.
    rewrite bool_decide_eq_true_2 by done. by eexists.
  - rewrite (optionalAuth_token _ _ _ _ Hh Ht), Hv. unfold findUser.
    rewrite Hp, Hst'. simpl. by rewrite Hu.
Qed.

End Logout.

(** ** The statements at sample requests *)
Section Samples.
Import BlogRoutes UserRoutes Examples.

(** Alice publishes her draft at time 5, publishes it again at time 8, and
    takes it back. *)
Lemma updateBlog_publishedAt_witness :
  blogs (store "draft" 2) !! 1%N = Some (post "draft" 1)
  /\ validate_update (status_patch "published") = []
  /\ exists P' destroyed,
       updateBlog accept_all 5 (store "draft" 2) as_alice 1%N
                  (status_patch "published")
       = (ok (Saved "Blog updated successfully" P'),
          set_blogs (<[1%N := P']> (blogs (store "draft" 2))) (store "draft" 2),
          destroyed)
       /\ publishedAt P' = Some 5.
Proof.
  split; [reflexivity|]. split; [reflexivity|].
  destruct (updateBlog_publishedAt accept_all 5 (store "draft" 2) as_alice 1%N
              (status_patch "published") (post "draft" 1) alice)
    as (P' & destroyed & Heq & Hpub & _);
    [reflexivity | reflexivity | reflexivity | reflexivity | reflexivity |].
  exists P', destroyed. split; [exact Heq|].
  apply Hpub; [reflexivity | discriminate].
Defined.

Lemma toggleLike_twice_restores_witness :
  let b := set_likes [1%N; 2%N] (post "published" 0) in
  NoDup (likes b)
  /\ likes (toggleLike 1%N (toggleLike 1%N b)) ≡ₚ [1%N; 2%N]
  /\ likeCount (toggleLike 1%N (toggleLike 1%N b)) = 2%nat.
Proof.
  intros b.
  assert (Hnd : NoDup (likes b)).
  { simpl. apply NoDup_cons. split; [|apply NoDup_singleton].
    rewrite list_elem_of_singleton. discriminate. }
  split; [exact Hnd|].
  destruct (toggleLike_twice_restores b 1%N Hnd) as (Hp & _ & _ & Hc & _).
  split; [exact Hp | exact Hc].
Defined.

(** Bob is refused Alice's draft; Alice reads it. *)
Lemma getBlog_visibility_witness :
  getBlog (store "draft" 2) as_bob 1%N
  = (fail 404 "Blog not found", store "draft" 2)
  /\ getBlog (store "draft" 2) as_alice 1%N
     = (ok (Single (view as_alice (post "draft" 1))), store "draft" 2).
Proof.
  split.
  - apply (getBlog_visibility (store "draft" 2) as_bob 1%N (post "draft" 1));
      [reflexivity | discriminate |].
    intros (u & [= <-] & Hu). discriminate.
  - apply (getBlog_visibility (store "draft" 2) as_alice 1%N (post "draft" 1));
      [reflexivity | discriminate |].
    exists alice. split; reflexivity.
Defined.

(** Bob's read of Alice's published post counts; Alice's own does not. *)
Lemma getBlog_counts_views_witness :
  (exists P', blogs (getBlog (store "published" 2) as_bob 1%N).2 !! 1%N = Some P'
              /\ views P' = 1)
  /\ getBlog (store "published" 2) as_alice 1%N
     = (ok (Single (view as_alice (post "published" 1))), store "published" 2).
Proof.
  destruct (getBlog_counts_views (store "published" 2) as_bob 1%N
              (post "published" 1)) as (Hb & _ & _);
    [reflexivity | reflexivity |].
  destruct (getBlog_counts_views (store "published" 2) as_alice 1%N
              (post "published" 1)) as (_ & Ha & _);
    [reflexivity | reflexivity |].
  split.
  - rewrite Hb.
    + eexists. split; [apply lookup_insert_eq | reflexivity].
    + intros (u & [= <-] & Hu). discriminate.
  - apply Ha. exists alice. split; reflexivity.
Defined.

(** The four verdicts of the mandatory middleware. *)
Lemma auth_verdicts_witness :
  let st := mkState {["gone"]} sample_users ∅ in
  let hdr t := mkRequest (Some ("Bearer " +:+ t)) None in
  unauthenticated (auth sample_verify st anonymous) anonymous
  /\ unauthenticated (auth sample_verify st (hdr "gone")) (hdr "gone")
  /\ unauthenticated (auth sample_verify st (hdr "old")) (hdr "old")
  /\ auth sample_verify st (hdr "ghost")
     = (hdr "ghost", Responded 404 "User not found")
  /\ auth sample_verify st (hdr "alice")
     = (set_user alice (hdr "alice"), CalledNext).
Proof.
  intros st hdr. split_and!.
  - apply (auth_verdicts sample_verify st anonymous). reflexivity.
  - apply (auth_verdicts sample_verify st (hdr "gone")) with (t := "gone");
      [reflexivity|]. left. unfold revoked. simpl. set_solver.
  - apply (auth_verdicts sample_verify st (hdr "old")) with (t := "old");
      [reflexivity|]. right. right. reflexivity.
  - apply (auth_verdicts sample_verify st (hdr "ghost")) with (t := "ghost") (uid := 9%N);
      [reflexivity | unfold revoked; simpl; set_solver | | reflexivity].
    eexists. split; reflexivity.
  - apply (auth_verdicts sample_verify st (hdr "alice")) with (t := "alice") (uid := 1%N);
      [reflexivity | unfold revoked; simpl; set_solver | | reflexivity].
    eexists. split; reflexivity.
Defined.

(** A revoked token of Alice still identifies her to the optional
    middleware; an expired one is let through without identity. *)
Lemma optionalAuth_lenient_witness :
  let st := mkState {["alice"]} sample_users ∅ in
  let hdr t := mkRequest (Some ("Bearer " +:+ t)) None in
  revoked st "alice"
  /\ optionalAuth sample_verify st (hdr "alice")
     = (set_user alice (hdr "alice"), CalledNext)
  /\ optionalAuth sample_verify st (hdr "old") = (hdr "old", CalledNext).
Proof.
  intros st hdr.
  assert (Hr : revoked st "alice") by (unfold revoked; simpl; set_solver).
  split; [exact Hr|]. split.
  - apply (optionalAuth_lenient sample_verify st (hdr "alice"))
      with (h := "Bearer alice") (t := "alice") (uid := 1%N);
      [reflexivity | reflexivity | reflexivity | exact Hr | | reflexivity].
    eexists. split; reflexivity.
  - apply (optionalAuth_lenient sample_verify st (hdr "old"))
      with (h := "Bearer old") (t := "old"); [reflexivity | reflexivity |].
    right. left. reflexivity.
Defined.

(** Alice may not archive her post. *)
Lemma updateBlog_never_archives_witness :
  exists errors,
    updateBlog accept_all 5 (store "published" 2) as_alice 1%N
               (status_patch "archived")
    = (mkResponse 400 (Errors errors), store "published" 2, [])
    /\ "Invalid status" ∈ errors.
Proof.
  apply (updateBlog_never_archives accept_all 5 (store "published" 2)
           as_alice 1%N (status_patch "archived")).
  reflexivity.
Defined.

End Samples.

(** * Further properties *)

(** ** Uploaded files *)
Section Uploads.
Import Upload Cloudinary MediaRoutes Reply Examples.
Variable upload : string -> string -> string -> option UploadResult.
Implicit Types (file : option File) (f : File).

Lemma validateFileType_spec file types :
  validateFileType file types = true <->
  exists f, file = Some f /\ mimetype f ∈ types.
Proof.
  unfold validateFileType. destruct file as [f|].
  - rewrite bool_decide_eq_true. split; [by exists f | by intros (? & [= <-] & ?)].
  - split; [done | by intros (? & ? & _)].
Qed.

Lemma validateFileSize_spec file limit :
  validateFileSize file (Some limit) = true <->
  exists f, file = Some f /\ size f <= limit.
Proof.
  unfold validateFileSize. destruct file as [f|]; simpl.
  - rewrite Z.leb_le. split; [by exists f | by intros (? & [= <-] & ?)].
  - split; [done | by intros (? & ? & _)].
Qed.

Lemma image_not_video m : m ∈ allowedImageTypes -> m ∉ allowedVideoTypes.
Proof.
  unfold allowedImageTypes, allowedVideoTypes. intros Hi Hv.
  repeat (apply elem_of_cons in Hi as [->|Hi];
          [ repeat (apply elem_of_cons in Hv as [Hv|Hv]; [discriminate|]);
            by apply elem_of_nil in Hv | ]).
  by apply elem_of_nil in Hi.
Qed.

Lemma image_excludes_video file :
  validateImage file = true -> validateVideo file = false.
Proof.
  unfold validateImage, validateVideo. intros Hi.
  destruct (validateFileType file allowedVideoTypes) eqn:Hv; [|done].
  apply validateFileType_spec in Hi as (f & -> & Hi).
  apply validateFileType_spec in Hv as (f' & [= <-] & Hv).
  by destruct (image_not_video _ Hi).
Qed.

(** X1. No file passes both [validateImage] and [validateVideo], and a
    missing file passes none of the validators, whatever the size limit. *)
Theorem validators_exclusive file :
  ~ (validateImage file = true /\ validateVideo file = true)
  /\ (file = None ->
      validateImage file = false /\ validateVideo file = false
      /\ forall limit, validateFileSize file limit = false).
Proof.
  split.
  - intros [Hi Hv]. apply image_excludes_video in Hi. congruence.
  - by intros ->.
Qed.

Lemma decide_fits types limit f :
  fits types limit f \/ ~ fits types limit f.
Proof.
  unfold fits. destruct (decide (mimetype f ∈ types)); [|tauto].
  destruct (Z_le_gt_dec (size f) limit); [tauto | right; lia].
Qed.

(** The three single-kind upload handlers follow one scheme. *)
Lemma upload_scheme (h : option File -> Answer Media) types limit
      (store : File -> option Uploaded) bad big err msg type file :
  (forall file,
     h file =
       match file with
       | None => Refused 400 "No file uploaded"
       | Some f =>
           if negb (validateFileType file types) then Refused 400 bad
           else if negb (validateFileSize file (Some limit))
           then Refused 400 big
           else match store f with
                | Some result => Done 200 (Some msg) (media_of type result)
                | None => Refused 500 err
                end
       end) ->
  (code_of (h file) = 200%nat <->
   exists f, file = Some f /\ fits types limit f /\ is_Some (store f))
  /\ (forall f, file = Some f -> ~ fits types limit f ->
      code_of (h file) = 400%nat).
Proof.
  intros Hh. rewrite Hh. destruct file as [f|].
  - destruct (validateFileType (Some f) types) eqn:Ht;
      destruct (validateFileSize (Some f) (Some limit)) eqn:Hs; simpl.
    + apply validateFileType_spec in Ht as (? & [= <-] & Ht).
      apply validateFileSize_spec in Hs as (? & [= <-] & Hs).
      split.
      * destruct (store f) as [r|] eqn:Hst; simpl.
        -- split; [intros _; exists f; by split_and! | done].
        -- split; [done | intros (? & [= <-] & _ & [? ?]); congruence].
      * intros ? [= <-] Hn. exfalso. by apply Hn.
    + split; [|done]. split; [done|]. intros (? & [= <-] & [_ Hf] & _).
      assert (validateFileSize (Some f) (Some limit) = true)
        by (apply validateFileSize_spec; by exists f). congruence.
    + split; [|done]. split; [done|]. intros (? & [= <-] & [Hf _] & _).
      assert (validateFileType (Some f) types = true)
        by (apply validateFileType_spec; by exists f). congruence.
    + split; [|done]. split; [done|]. intros (? & [= <-] & [Hf _] & _).
      assert (validateFileType (Some f) types = true)
        by (apply validateFileType_spec; by exists f). congruence.
  - simpl. split; [|done]. split; [done | by intros (? & ? & _)].
Qed.

(** X2. [POST /upload-image], [/upload-video] and [/upload-avatar] answer
    200 exactly when a file is present, has an allowed type, is not larger
    than 5 MB, 10 MB and 2 MB respectively (the bound itself is accepted),
    and the media host stores it; a file of another type or above the bound
    is answered 400. *)
Theorem upload_accepts file :
  ((code_of (upload_image upload file) = 200%nat <->
    exists f, file = Some f /\ fits allowedImageTypes (5 * MB) f
              /\ is_Some (uploadImage upload f "blogss/images"))
   /\ (forall f, file = Some f -> ~ fits allowedImageTypes (5 * MB) f ->
       code_of (upload_image upload file) = 400%nat))
  /\ ((code_of (upload_video upload file) = 200%nat <->
       exists f, file = Some f /\ fits allowedVideoTypes (10 * MB) f
                 /\ is_Some (uploadVideo upload f "blogss/videos"))
      /\ (forall f, file = Some f -> ~ fits allowedVideoTypes (10 * MB) f ->
          code_of (upload_video upload file) = 400%nat))
  /\ ((code_of (upload_avatar upload file) = 200%nat <->
       exists f, file = Some f /\ fits allowedImageTypes (2 * MB) f
                 /\ is_Some (uploadImage upload f "blogss/avatars"))
      /\ (forall f, file = Some f -> ~ fits allowedImageTypes (2 * MB) f ->
          code_of (upload_avatar upload file) = 400%nat)).
Proof.
  split; [|split].
  - eapply (upload_scheme (upload_image upload) allowedImageTypes (5 * MB)
             (fun f => uploadImage upload f "blogss/images")
             _ _ _ _ (Some "image")).
    intros [f|]; reflexivity.
  - eapply (upload_scheme (upload_video upload) allowedVideoTypes (10 * MB)
             (fun f => uploadVideo upload f "blogss/videos")
             _ _ _ _ (Some "video")).
    intros [f|]; reflexivity.
  - eapply (upload_scheme (upload_avatar upload) allowedImageTypes (2 * MB)
             (fun f => uploadImage upload f "blogss/avatars")
             _ _ _ _ None).
    intros [f|]; reflexivity.
Qed.

End Uploads.

(** ** Media of posts, and deletion of assets *)
Section BlogMedia.
Import Upload Cloudinary MediaRoutes Reply Examples.
Variable upload : string -> string -> string -> option UploadResult.
Variable destroy : string -> string -> option string.
Implicit Types (file : option File) (f : File).

Lemma validateImage_fits f limit :
  validateImage (Some f) = true ->
  validateFileSize (Some f) (Some limit) = true ->
  fits allowedImageTypes limit f.
Proof.
  unfold validateImage. intros Ht Hs.
  apply validateFileType_spec in Ht as (? & [= <-] & Ht).
  apply validateFileSize_spec in Hs as (? & [= <-] & Hs). by split.
Qed.

Lemma validateVideo_fits f limit :
  validateVideo (Some f) = true ->
  validateFileSize (Some f) (Some limit) = true ->
  fits allowedVideoTypes limit f.
Proof.
  unfold validateVideo. intros Ht Hs.
  apply validateFileType_spec in Ht as (? & [= <-] & Ht).
  apply validateFileSize_spec in Hs as (? & [= <-] & Hs). by split.
Qed.

Lemma fits_validate types limit f :
  fits types limit f ->
  validateFileType (Some f) types = true
  /\ validateFileSize (Some f) (Some limit) = true.
Proof.
  intros [Ht Hs]. split.
  - apply validateFileType_spec. by exists f.
  - apply validateFileSize_spec. by exists f.
Qed.

(** X3. [POST /upload-blog-media] answers 200 exactly for an image of at
    most 5 MB or a video of at most 10 MB that the media host stores; the
    answer then names the kind of the file, and carries a duration for a
    video only.  An image above 5 MB is refused without asking the host,
    even when a video of that size would pass. *)
Theorem upload_blog_media_accepts file :
  (code_of (upload_blog_media upload file) = 200%nat <->
   exists f, file = Some f
     /\ ((fits allowedImageTypes (5 * MB) f
          /\ is_Some (uploadImage upload f "blogss/blog-images"))
         \/ (fits allowedVideoTypes (10 * MB) f
             /\ is_Some (uploadVideo upload f "blogss/blog-videos"))))
  /\ (forall msg m,
        upload_blog_media upload file = Done 200 msg m ->
        (validateImage file = true /\ media_type m = Some "image"
         /\ media_duration m = None)
        \/ (validateVideo file = true /\ media_type m = Some "video"))
  /\ (forall f up,
        file = Some f -> mimetype f ∈ allowedImageTypes -> 5 * MB < size f ->
        upload_blog_media up file =
          Refused 400 "File too large. Image must be less than 5MB.").
Proof.
  split_and!.
  - destruct file as [f|];
      [|split; [done | by intros (? & ? & _)]].
    unfold upload_blog_media. cbv beta iota zeta.
    destruct (validateImage (Some f)) eqn:Hi.
    + assert (Hv : validateVideo (Some f) = false)
        by (by apply image_excludes_video).
      destruct (validateFileSize (Some f) (Some (5 * MB))) eqn:Hs; simpl.
      * destruct (uploadImage upload f "blogss/blog-images") eqn:Hu; simpl.
        -- split; [intros _ | done]. exists f. split; [done|]. left.
           split; [by apply validateImage_fits | by rewrite Hu].
        -- split; [done|]. intros (? & [= <-] & [[_ [? ?]]|[Hf _]]); [congruence|].
           apply fits_validate in Hf as [Hf _].
           unfold validateVideo in Hv. congruence.
      * split; [done|]. intros (? & [= <-] & [[Hf _]|[Hf _]]);
          apply fits_validate in Hf as [Hf1 Hf2];
          unfold validateVideo in Hv; congruence.
    + destruct (validateVideo (Some f)) eqn:Hv.
      * destruct (validateFileSize (Some f) (Some (10 * MB))) eqn:Hs; simpl.
        -- destruct (uploadVideo upload f "blogss/blog-videos") eqn:Hu; simpl.
           ++ split; [intros _ | done]. exists f. split; [done|]. right.
              split; [by apply validateVideo_fits | by rewrite Hu].
           ++ split; [done|].
              intros (? & [= <-] & [[Hf _]|[_ [? ?]]]); [|congruence].
              apply fits_validate in Hf as [Hf _].
              unfold validateImage in Hi. congruence.
        -- split; [done|]. intros (? & [= <-] & [[Hf _]|[Hf _]]);
             apply fits_validate in Hf as [Hf1 Hf2];
             unfold validateImage in Hi; congruence.
      * simpl. split; [done|]. intros (? & [= <-] & [[Hf _]|[Hf _]]);
          apply fits_validate in Hf as [Hf1 Hf2];
          unfold validateImage, validateVideo in *; congruence.
  - intros msg m. destruct file as [f|]; [|done].
    unfold upload_blog_media. cbv beta iota zeta.
    destruct (validateImage (Some f)) eqn:Hi.
    + assert (Hv : validateVideo (Some f) = false)
        by (by apply image_excludes_video).
      rewrite Hv. destruct (negb _); simpl; [done|].
      destruct (uploadImage _ _ _); [|done]. intros [= _ <-]. by left.
    + destruct (validateVideo (Some f)) eqn:Hv; simpl; [|done].
      destruct (negb _); simpl; [done|].
      destruct (uploadVideo _ _ _); [|done]. intros [= _ <-]. by right.
  - intros f up -> Ht Hs. unfold upload_blog_media. cbv beta iota zeta.
    assert (Hi : validateImage (Some f) = true)
      by (apply validateFileType_spec; by exists f).
    rewrite Hi.
    assert (Hz : validateFileSize (Some f) (Some (5 * MB)) = false).
    { simpl. apply Z.leb_gt. lia. }
    by rewrite Hz.
Qed.

(** X4. [DELETE /:public_id] reports an identifier that starts with
    ["local:"] as deleted without asking the media host; for any other
    identifier the answer is 500 exactly when the host call fails, and the
    host is asked for a video exactly when the identifier contains
    ["video"]. *)
Theorem delete_file_local public_id :
  (JS.startsWith public_id "local:" = true ->
   delete_file destroy public_id
   = Done 200 (Some "File deleted successfully") Skipped)
  /\ (JS.truthy public_id = true -> JS.startsWith public_id "local:" = false ->
      (code_of (delete_file destroy public_id) = 500%nat <->
       destroy public_id (if contains "video" public_id
                          then "video" else "image") = None)
      /\ forall result,
           destroy public_id (if contains "video" public_id
                              then "video" else "image") = Some result ->
           delete_file destroy public_id
           = Done 200 (Some "File deleted successfully") (Destroyed result)).
Proof.
  unfold delete_file, deleteFile, resource_type_of. split.
  - intros Hl. rewrite Hl. by destruct public_id.
  - intros Ht Hl. rewrite Ht, Hl. simpl.
    destruct (destroy _ _) as [r|]; simpl; split; try done.
    by intros r' [= <-].
Qed.

End BlogMedia.

(** ** The administrators' gate *)
Section Admin.
Import AdminAuth Examples.
Variable jwt_verify : string -> VerifyResult.
Implicit Types (st : State) (req : Request).

Lemma adminAuth_next st req req' :
  adminAuth jwt_verify st req = (req', CalledNext) ->
  exists h p u,
    authorization req = Some h
    /\ JS.truthy (JS.remove_first "Bearer " h) = true
    /\ jwt_verify (JS.remove_first "Bearer " h) = Decoded p
    /\ findUser st (userId p) = Some u
    /\ role u = "admin" /\ req' = set_user u req.
Proof.
  unfold adminAuth. destruct (authorization req) as [h|]; simpl; [|done].
  destruct (JS.truthy _) eqn:Ht; simpl; [|done].
  destruct (jwt_verify _) as [p| | |] eqn:Hv; try done.
  destruct (findUser st (userId p)) as [u|] eqn:Hu; [|done].
  destruct (String.eqb (role u) "admin") eqn:Hr; simpl; [|done].
  intros [= <-]. apply String.eqb_eq in Hr. by exists h, p, u.
Qed.

Lemma bearer_token req t :
  bearer req = Some t ->
  exists h, authorization req = Some h /\ t = JS.remove_first "Bearer " h.
Proof.
  unfold bearer. destruct (authorization req) as [h|]; [|done].
  destruct (_ && _); [|done]. intros [= <-]. by exists h.
Qed.

(** X5. [adminAuth] calls [next()] exactly for a request whose
    [Authorization] header, its first ["Bearer "] taken out, is a token
    that is not empty, verifies and names a stored user whose role is
    ['admin'], and it attaches that very user; every other request is
    answered 401, 403 or 500 and is left without identity. *)
Theorem adminAuth_admits_admins st req :
  (forall req',
     adminAuth jwt_verify st req = (req', CalledNext) <->
     exists h uid u,
       authorization req = Some h
       /\ JS.truthy (JS.remove_first "Bearer " h) = true
       /\ names jwt_verify (JS.remove_first "Bearer " h) uid
       /\ users st !! uid = Some u /\ role u = "admin"
       /\ req' = set_user u req)
  /\ (forall req' c e,
        adminAuth jwt_verify st req = (req', Responded c e) ->
        req' = req /\ c ∈ [401; 403; 500]%nat).
Proof.
  split.
  - intros req'. split.
    + intros H.
      destruct (adminAuth_next _ _ _ H)
        as (h & p & u & Hh & Ht & Hv & Hu & Hr & ->).
      unfold findUser in Hu. destruct (userId p) as [uid|] eqn:Hp; [|done].
      exists h, uid, u. split_and!; try done. by exists p.
    + intros (h & uid & u & Hh & Ht & (p & Hv & Hp) & Hu & Hr & ->).
      unfold adminAuth. rewrite Hh. simpl. rewrite Ht, Hv. simpl.
      unfold findUser. rewrite Hp. simpl. rewrite Hu, Hr. done.
  - intros req' c e. unfold adminAuth.
    destruct (authorization req) as [h|]; simpl;
      [|intros [= <- <- _]; split; [done | set_solver]].
    destruct (negb (JS.truthy _));
      [intros [= <- <- _]; split; [done | set_solver]|].
    destruct (jwt_verify _) as [p| | |];
      try (intros [= <- <- _]; split; [done | set_solver]).
    destruct (findUser st (userId p)) as [u|];
      [|intros [= <- <- _]; split; [done | set_solver]].
    destruct (negb _); [|done].
    intros [= <- <- _]; split; [done | set_solver].
Qed.

(** X6. [adminAuth] does not read the revocation set.  A request it lets
    through with a bearer token is let through by [auth] with the same
    user when the token is not revoked, and is answered 401 by [auth] when
    it is: a token revoked by a logout still opens the administrators'
    gate. *)
Theorem adminAuth_ignores_revocation st req req' t :
  adminAuth jwt_verify st req = (req', CalledNext) ->
  bearer req = Some t ->
  (forall bl, adminAuth jwt_verify (set_blacklist bl st) req
              = (req', CalledNext))
  /\ (~ revoked st t -> auth jwt_verify st req = (req', CalledNext))
  /\ (revoked st t -> unauthenticated (auth jwt_verify st req) req).
Proof.
  intros H Hb.
  destruct (adminAuth_next _ _ _ H) as (h & p & u & Hh & Ht & Hv & Hu & Hr & ->).
  destruct (bearer_token _ _ Hb) as (h' & Hh' & ->).
  rewrite Hh in Hh'. injection Hh' as <-.
  split_and!.
  - done.
  - intros Hn. rewrite (auth_bearer _ _ _ _ Hb).
    unfold isTokenBlacklisted. rewrite bool_decide_eq_false_2 by done.
    rewrite Hv. unfold findUser in Hu. destruct (userId p) as [uid|]; [|done].
    simpl in Hu. by rewrite Hu.
  - intros Hy. rewrite (auth_bearer _ _ _ _ Hb).
    unfold isTokenBlacklisted. rewrite bool_decide_eq_true_2 by done.
    by eexists.
Qed.

End Admin.

(** Carol's token is revoked; the administrators' gate opens all the same. *)
Lemma adminAuth_ignores_revocation_witness :
  let req := mkRequest (Some "Bearer carol") None in
  revoked Examples.admin_store "carol"
  /\ AdminAuth.adminAuth Examples.admin_verify Examples.admin_store req
     = (set_user Examples.carol req, CalledNext)
  /\ unauthenticated (auth Examples.admin_verify Examples.admin_store req) req.
Proof.
  intros req.
  assert (Hr : revoked Examples.admin_store "carol")
    by (unfold revoked; simpl; set_solver).
  destruct (adminAuth_ignores_revocation Examples.admin_verify
              Examples.admin_store req (set_user Examples.carol req) "carol")
    as (_ & _ & Hno); [reflexivity | reflexivity |].
  split; [exact Hr|]. split; [reflexivity | exact (Hno Hr)].
Defined.

(** ** Deleting posts, commenting, and the author's own list *)
Section Writes.
Import BlogRoutes BlogWrites Reply Examples.
Variable runValidators : Patch -> bool.
Implicit Types (st : State) (req : Request) (id : ObjectId) (P : Blog).

Lemma owner_is_author req P u :
  user req = Some u -> (is_author u P = true <-> owner req P).
Proof.
  intros Hu. unfold is_author, owner. rewrite N.eqb_eq. split.
  - intros H. by exists u.
  - intros (u' & Hu' & H). congruence.
Qed.


(** X8. Only the author writes to a post through [PUT /:id] and
    [DELETE /:id]: a request by anyone else, or without identity, leaves
    the stores as they are and has no asset destroyed. *)
Theorem writes_need_owner now st req id updates P :
  blogs st !! id = Some P -> ~ owner req P ->
  (updateBlog runValidators now st req id updates).1.2 = st
  /\ (updateBlog runValidators now st req id updates).2 = []
  /\ (deleteBlog st req id).1.2 = st
  /\ (deleteBlog st req id).2 = [].
Proof.
  intros Hl Ho.
  assert (Hna : forall u, user req = Some u -> is_author u P = false).
  { intros u Hu. destruct (is_author u P) eqn:E; [|done].
    by apply (owner_is_author req P u Hu) in E. }
  unfold updateBlog, deleteBlog. rewrite Hl.
  destruct (validate_update updates); destruct (user req) as [u|] eqn:Hu;
    try rewrite (Hna u eq_refl); done.
Qed.

(** X9. A comment of 1 to 1000 characters by an authenticated user on a
    published post is answered 201 and appended after the comments the post
    has, with the user's identifier and the current time; the comment count
    grows by one and nothing else of the post, and no other post, changes. *)
Theorem addComment_appends now st req id P u text :
  blogs st !! id = Some P -> published P -> user req = Some u ->
  (1 <= String.length text <= 1000)%nat ->
  let c := mkComment (u_id u) text now in
  let P' := set_comments (comments P ++ [c]) P in
  addComment now st req id (Some text)
  = (Done 201 (Some "Comment added successfully") c,
     set_blogs (<[id := P']> (blogs st)) st)
  /\ commentCount P' = S (commentCount P)
  /\ last (comments P') = Some c
  /\ set_comments (comments P) P' = P.
Proof.
  intros Hl Hp Hu Hlen c P'. apply is_published_spec in Hp.
  split_and!.
  - unfold addComment, validate_comment, check, isLength.
    assert ((1 <=? String.length text)%nat && (String.length text <=? 1000)%nat
            = true) as ->.
    { apply andb_true_intro. split; apply Nat.leb_le; lia. }
    by rewrite Hl, Hp, Hu.
  - unfold commentCount. subst P'. simpl. rewrite length_app. simpl. lia.
  - subst P'. simpl. apply last_snoc.
  - subst P'. by destruct P.
Qed.

(** X10. A post that is not published takes no comment, not even from its
    author: the request is answered 400 or 404 and nothing is written.  An
    empty comment, or one above 1000 characters, is answered 400 on any
    post. *)
Theorem addComment_refuses now st req id text :
  (forall P, blogs st !! id = Some P -> ~ published P ->
     (addComment now st req id text).2 = st
     /\ code_of (addComment now st req id text).1 ∈ [400; 404]%nat)
  /\ (match text with
      | Some t => String.length t = 0%nat \/ (1000 < String.length t)%nat
      | None => True
      end ->
      addComment now st req id text
      = (Rejected ["Comment must be between 1 and 1000 characters"], st)).
Proof.
  split.
  - intros P Hl Hp. apply is_published_false in Hp. unfold addComment.
    destruct (validate_comment text); [|split; [done | set_solver]].
    rewrite Hl, Hp. simpl. split; [done | set_solver].
  - intros H. unfold addComment, validate_comment, check, isLength.
    destruct text as [t|]; [|done].
    assert ((1 <=? String.length t)%nat && (String.length t <=? 1000)%nat
            = false) as ->; [|done].
    destruct H as [H|H].
    + rewrite H. done.
    + apply andb_false_intro2. apply Nat.leb_gt. lia.
Qed.

End Writes.

Section MyPosts.
Import BlogRoutes BlogWrites Reply.
Variable sort_created : list Blog -> list Blog.
Hypothesis sort_created_perm : forall l, sort_created l ≡ₚ l.

(** X11. [GET /my-posts] lists exactly the stored posts whose author is the
    requester, whatever their status: drafts are listed, and no post of
    another author is. *)
Theorem myPosts_own st req u :
  user req = Some u ->
  exists l,
    myPosts sort_created st req = Done 200 None l
    /\ (forall b, b ∈ l <->
                  (exists id, blogs st !! id = Some b) /\ author b = u_id u)
    /\ length l = length (List.filter (fun b => N.eqb (author b) (u_id u))
                                      (snd <$> map_to_list (blogs st))).
Proof.
  intros Hu. unfold myPosts. rewrite Hu. eexists. split; [done|]. split.
  - intros b. rewrite sort_created_perm, list_elem_of_In, filter_In.
    rewrite <- list_elem_of_In, N.eqb_eq, list_elem_of_fmap. split.
    + intros [([id b'] & -> & Hin) Ha]. split; [|done].
      exists id. by apply elem_of_map_to_list in Hin.
    + intros [(id & Hl) Ha]. split; [|done].
      exists (id, b). split; [done|]. by apply elem_of_map_to_list.
  - by rewrite sort_created_perm.
Qed.

End MyPosts.

(** ** The follow relation *)
Section Relation.
Import UserRoutes Examples.
Variable toString : ObjectId -> string.
Variable castId : string -> option ObjectId.
Implicit Types (st : State) (req : Request) (a b k : ObjectId)
         (l : list ObjectId) (s : string).

Lemma lookup_save_following id l st k U :
  users (save_following id l st) !! k = Some U ->
  exists U0, users st !! k = Some U0
             /\ u_id U = u_id U0 /\ followers U = followers U0
             /\ following U = if decide (k = id) then l else following U0.
Proof.
  unfold save_following. simpl. rewrite lookup_alter.
  destruct (decide (id = k)) as [->|Hne].
  - destruct (users st !! k) as [U0|]; simpl; [|done].
    intros [= <-]. exists U0. by rewrite decide_True.
  - intros H. exists U. by rewrite decide_False.
Qed.

Lemma lookup_save_followers id l st k U :
  users (save_followers id l st) !! k = Some U ->
  exists U0, users st !! k = Some U0
             /\ u_id U = u_id U0 /\ following U = following U0
             /\ followers U = if decide (k = id) then l else followers U0.
Proof.
  unfold save_followers. simpl. rewrite lookup_alter.
  destruct (decide (id = k)) as [->|Hne].
  - destruct (users st !! k) as [U0|]; simpl; [|done].
    intros [= <-]. exists U0. by rewrite decide_True.
  - intros H. exists U. by rewrite decide_False.
Qed.

(** The two writes of [follow] and [unfollow], read back. *)
Lemma lookup_saves me b l1 l2 st k U :
  users (save_followers b l2 (save_following me l1 st)) !! k = Some U ->
  exists U0, users st !! k = Some U0
             /\ u_id U = u_id U0
             /\ following U = (if decide (k = me) then l1 else following U0)
             /\ followers U = (if decide (k = b) then l2 else followers U0).
Proof.
  intros H. apply lookup_save_followers in H as (U1 & H1 & Hi1 & Hf1 & Hg1).
  apply lookup_save_following in H1 as (U0 & H0 & Hi0 & Hg0 & Hf0).
  exists U0. split_and!; [done | congruence | congruence |].
  rewrite Hg1. by destruct (decide (k = b)).
Qed.

(** The stores after [follow] and after [unfollow]. *)
Lemma follow_state st req s :
  (follow toString castId st req s).2 = st
  \/ exists me A B b,
       user req = Some me /\ toString (u_id me) <> s /\ castId s = Some b
       /\ users st !! u_id me = Some A /\ users st !! b = Some B
       /\ includes_text toString s (following A) = false
       /\ (follow toString castId st req s).2 =
            save_followers b (followers B ++ [u_id me])
              (save_following (u_id me) (following A ++ [b]) st).
Proof.
  unfold follow. destruct (user req) as [me|]; [|by left].
  destruct (String.eqb_spec (toString (u_id me)) s) as [|Hne]; [by left|].
  destruct (castId s) as [b|] eqn:Hc; [|by left].
  destruct (users st !! b) as [B|] eqn:HB; [|by left].
  destruct (users st !! u_id me) as [A|] eqn:HA; [|by left].
  destruct (includes_text toString s (following A)) eqn:Hi; [by left|].
  right. by exists me, A, B, b.
Qed.

Lemma unfollow_state st req s :
  (unfollow toString castId st req s).2 = st
  \/ exists me A B b,
       user req = Some me /\ castId s = Some b
       /\ users st !! u_id me = Some A /\ users st !! b = Some B
       /\ (unfollow toString castId st req s).2 =
            save_followers b
              (without toString (toString (u_id me)) (followers B))
              (save_following (u_id me)
                 (without toString s (following A)) st).
Proof.
  unfold unfollow. destruct (user req) as [me|]; [|by left].
  destruct (castId s) as [b|] eqn:Hc; [|by left].
  destruct (users st !! u_id me) as [A|] eqn:HA;
    destruct (users st !! b) as [B|] eqn:HB; try by left.
  right. by exists me, A, B, b.
Qed.

(** Asked with the text of ids as the service prints them, [follow] and
    [unfollow] keep the relation mutual. *)
Lemma follow_unfollow_mutual st req s :
  reads_back toString castId ->
  (forall b, castId s = Some b -> s = toString b) ->
  mutual st ->
  mutual (follow toString castId st req s).2
  /\ mutual (unfollow toString castId st req s).2.
Proof.
  intros Hback Hs [Hm Hself]. split.
  - destruct (follow_state st req s)
      as [->|(me & A & B & b & Hu & Hne & Hc & HA & HB & Hni & ->)]; [done|].
    rewrite (Hs _ Hc) in Hne, Hni.
    assert (Hne' : u_id me <> b) by (by intros E; rewrite E in Hne).
    assert (Hni' : b ∉ following A).
    { intros Hin. apply (includes_text_canonical _ _ Hback) in Hin.
      congruence. }
    clear Hne Hni. split.
    + intros a0 b0 A0 B0 H1 H2.
      apply lookup_saves in H1 as (A1 & HA1 & _ & Hf1 & _).
      apply lookup_saves in H2 as (B1 & HB1 & _ & _ & Hg2).
      rewrite Hf1, Hg2. specialize (Hm a0 b0 A1 B1 HA1 HB1).
      destruct (decide (a0 = u_id me)) as [->|Ha];
        destruct (decide (b0 = b)) as [->|Hb].
      * rewrite !elem_of_app, !list_elem_of_singleton. intuition congruence.
      * rewrite HA in HA1. injection HA1 as <-.
        rewrite elem_of_app, list_elem_of_singleton. intuition congruence.
      * rewrite HB in HB1. injection HB1 as <-.
        rewrite elem_of_app, list_elem_of_singleton. intuition congruence.
      * done.
    + intros a0 A0 H1.
      apply lookup_saves in H1 as (A1 & HA1 & _ & Hf1 & _).
      rewrite Hf1. specialize (Hself a0 A1 HA1).
      destruct (decide (a0 = u_id me)) as [->|Ha]; [|done].
      rewrite HA in HA1. injection HA1 as <-.
      rewrite elem_of_app, list_elem_of_singleton. intuition congruence.
  - destruct (unfollow_state st req s)
      as [->|(me & A & B & b & Hu & Hc & HA & HB & ->)]; [done|].
    rewrite (Hs _ Hc). split.
    + intros a0 b0 A0 B0 H1 H2.
      apply lookup_saves in H1 as (A1 & HA1 & _ & Hf1 & _).
      apply lookup_saves in H2 as (B1 & HB1 & _ & _ & Hg2).
      rewrite Hf1, Hg2. pose proof (Hm a0 b0 A1 B1 HA1 HB1) as Hab.
      destruct (decide (a0 = u_id me)) as [->|Ha];
        destruct (decide (b0 = b)) as [->|Hb];
        rewrite ?(without_spec _ _ Hback).
      * intuition congruence.
      * rewrite HA in HA1. injection HA1 as <-. intuition congruence.
      * rewrite HB in HB1. injection HB1 as <-. intuition congruence.
      * done.
    + intros a0 A0 H1.
      apply lookup_saves in H1 as (A1 & HA1 & _ & Hf1 & _).
      rewrite Hf1. specialize (Hself a0 A1 HA1).
      destruct (decide (a0 = u_id me)) as [->|Ha]; [|done].
      rewrite (without_spec _ _ Hback). rewrite HA in HA1.
      injection HA1 as <-. tauto.
Qed.

Lemma saves_defined me b l1 l2 st k U0 :
  users st !! k = Some U0 ->
  is_Some (users (save_followers b l2 (save_following me l1 st)) !! k).
Proof.
  intros H. unfold save_followers, save_following. simpl.
  destruct (decide (b = k)) as [->|Hb];
    [rewrite lookup_alter_eq | rewrite lookup_alter_ne by done];
    (destruct (decide (me = k)) as [->|Hm];
     [rewrite lookup_alter_eq | rewrite lookup_alter_ne by done]);
    rewrite H; simpl; eauto.
Qed.

Lemma state_eq (st st' : State) :
  tokenBlacklist st = tokenBlacklist st' -> users st = users st' ->
  blogs st = blogs st' -> st = st'.
Proof. destruct st, st'. simpl. by intros -> -> ->. Qed.

(** Writing back the lists a user has changes nothing. *)
Lemma saves_same me b l1 l2 st A B :
  users st !! me = Some A -> users st !! b = Some B ->
  following A = l1 -> followers B = l2 ->
  save_followers b l2 (save_following me l1 st) = st.
Proof.
  intros HA HB <- <-. apply state_eq; [done | | done].
  unfold save_followers, save_following. simpl.
  rewrite (alter_id (set_following (following A)) (users st) me).
  - apply alter_id. intros x Hx. rewrite HB in Hx. injection Hx as <-.
    by destruct B.
  - intros x Hx. rewrite HA in Hx. injection Hx as <-. by destruct A.
Qed.

(** X12. A follow that is then taken back leaves no trace: when A does not
    follow B and is not among the followers of B, and both requests are
    made with the text of the id of B as the service prints it, [follow]
    succeeds and the [unfollow] that comes next gives back the stores as
    they were. *)
Theorem follow_then_unfollow st req me A B b :
  reads_back toString castId ->
  user req = Some me -> users st !! u_id me = Some A ->
  users st !! b = Some B -> u_id me <> b ->
  b ∉ following A -> u_id me ∉ followers B ->
  (follow toString castId st req (toString b)).1
  = ok (Message "User followed successfully")
  /\ unfollow toString castId
       (follow toString castId st req (toString b)).2 req (toString b)
     = (ok (Message "User unfollowed successfully"), st).
Proof.
  intros Hback Hu HA HB Hne Hni Hnf.
  assert (Hf : follow toString castId st req (toString b) =
               (ok (Message "User followed successfully"),
                save_followers b (followers B ++ [u_id me])
                  (save_following (u_id me) (following A ++ [b]) st))).
  { unfold follow. rewrite Hu.
    destruct (String.eqb_spec (toString (u_id me)) (toString b)) as [He|_].
    { by apply (toString_inj _ _ Hback) in He. }
    rewrite Hback, HB, HA.
    by rewrite (includes_text_cast _ _ Hback _ _ _ (Hback b) Hni). }
  rewrite Hf. split; [done|]. simpl.
  set (st1 := save_followers _ _ _).
  assert (HA1 : users st1 !! u_id me
                = Some (set_following (following A ++ [b]) A)).
  { subst st1. unfold save_followers, save_following. simpl.
    rewrite lookup_alter_ne by done. by rewrite lookup_alter_eq, HA. }
  assert (HB1 : users st1 !! b
                = Some (set_followers (followers B ++ [u_id me]) B)).
  { subst st1. unfold save_followers, save_following. simpl.
    rewrite lookup_alter_eq. rewrite lookup_alter_ne by done. by rewrite HB. }
  unfold unfollow. rewrite Hu, Hback, HA1, HB1. f_equal. simpl.
  rewrite (without_snoc _ _ Hback) by done.
  rewrite (without_snoc _ _ Hback) by done.
  apply state_eq; [done | | done].
  subst st1. unfold save_followers, save_following. simpl.
  rewrite (alter_alter_ne _ _ _ (u_id me) b) by done.
  rewrite !alter_alter_eq.
  rewrite (alter_id _ (users st) (u_id me)).
  - apply alter_id. intros x Hx. rewrite HB in Hx. injection Hx as <-.
    by destruct B.
  - intros x Hx. rewrite HA in Hx. injection Hx as <-. by destruct A.
Qed.

(** X13. After an [unfollow] made with the text of the id of B as the
    service prints it, B is not in the following list of A and A is not
    among the followers of B; asking again succeeds and changes nothing;
    and when A did not follow B in the first place the request succeeds
    without changing the stores. *)
Theorem unfollow_settles st req me A B b :
  reads_back toString castId ->
  user req = Some me -> users st !! u_id me = Some A ->
  users st !! b = Some B -> u_id me <> b ->
  let st1 := (unfollow toString castId st req (toString b)).2 in
  (unfollow toString castId st req (toString b)).1
  = ok (Message "User unfollowed successfully")
  /\ (forall A1, users st1 !! u_id me = Some A1 -> b ∉ following A1)
  /\ (forall B1, users st1 !! b = Some B1 -> u_id me ∉ followers B1)
  /\ unfollow toString castId st1 req (toString b)
     = (ok (Message "User unfollowed successfully"), st1)
  /\ (b ∉ following A -> u_id me ∉ followers B -> st1 = st).
Proof.
  intros Hback Hu HA HB _ st1.
  set (l1 := without toString (toString b) (following A)).
  set (l2 := without toString (toString (u_id me)) (followers B)).
  assert (Hst1 : unfollow toString castId st req (toString b) =
                 (ok (Message "User unfollowed successfully"),
                  save_followers b l2 (save_following (u_id me) l1 st))).
  { unfold unfollow. by rewrite Hu, Hback, HA, HB. }
  subst st1. rewrite Hst1. simpl.
  set (st1 := save_followers _ _ _).
  assert (Hgone1 : forall A1, users st1 !! u_id me = Some A1 ->
                              following A1 = l1).
  { intros A1 H. apply lookup_saves in H as (? & _ & _ & H & _).
    by rewrite decide_True in H. }
  assert (Hgone2 : forall B1, users st1 !! b = Some B1 -> followers B1 = l2).
  { intros B1 H. apply lookup_saves in H as (? & _ & _ & _ & H).
    by rewrite decide_True in H. }
  split_and!.
  - done.
  - intros A1 H. rewrite (Hgone1 _ H). unfold l1.
    rewrite (without_spec _ _ Hback). tauto.
  - intros B1 H. rewrite (Hgone2 _ H). unfold l2.
    rewrite (without_spec _ _ Hback). tauto.
  - destruct (saves_defined (u_id me) b l1 l2 st _ _ HA) as [A1 HA1].
    destruct (saves_defined (u_id me) b l1 l2 st _ _ HB) as [B1 HB1].
    fold st1 in HA1, HB1. unfold unfollow. rewrite Hu, Hback, HA1, HB1.
    f_equal.
    apply (saves_same _ _ _ _ _ A1 B1); [done | done | |].
    + rewrite (Hgone1 _ HA1). symmetry.
      apply (without_absent _ _ Hback). unfold l1.
      rewrite (without_spec _ _ Hback). tauto.
    + rewrite (Hgone2 _ HB1). symmetry.
      apply (without_absent _ _ Hback). unfold l2.
      rewrite (without_spec _ _ Hback). tauto.
  - intros Hni Hnf. subst st1 l1 l2.
    rewrite !(without_absent _ _ Hback) by done.
    by apply (saves_same _ _ _ _ _ A B).
Qed.

(** X28. [unfollow] filters the following list of A by the text of the
    URL and the followers list of B by the text of the id of A.  Asked
    with a text that is cast to the id of B without being the text of any
    id, as an upper-case spelling is, it answers 200, leaves the
    following list of A as it was and removes A from the followers of B:
    if A followed B, B is still followed by A and no longer lists A among
    its followers. *)
Theorem unfollow_other_text st req me A B b s :
  reads_back toString castId ->
  castId s = Some b -> (forall i, s <> toString i) ->
  user req = Some me -> users st !! u_id me = Some A ->
  users st !! b = Some B -> u_id me <> b ->
  let st1 := (unfollow toString castId st req s).2 in
  (unfollow toString castId st req s).1
  = ok (Message "User unfollowed successfully")
  /\ users st1 !! u_id me = Some A
  /\ (exists B1, users st1 !! b = Some B1 /\ (u_id me ∉ followers B1)
                 /\ following B1 = following B)
  /\ (b ∈ following A ->
      ~ mutual st1).
Proof.
  intros Hback Hc Hs Hu HA HB Hne st1.
  assert (Hst1 : unfollow toString castId st req s =
                 (ok (Message "User unfollowed successfully"),
                  save_followers b
                    (without toString (toString (u_id me)) (followers B))
                    (save_following (u_id me) (following A) st))).
  { unfold unfollow. rewrite Hu, Hc, HA, HB.
    by rewrite (proj2 (other_text toString s _ Hs)). }
  subst st1. rewrite Hst1. simpl.
  set (st1 := save_followers _ _ _).
  assert (HA1 : users st1 !! u_id me = Some A).
  { subst st1. unfold save_followers, save_following. simpl.
    rewrite lookup_alter_ne by done. rewrite lookup_alter_eq, HA. simpl.
    by destruct A. }
  assert (HB1 : users st1 !! b
                = Some (set_followers
                          (without toString (toString (u_id me)) (followers B))
                          B)).
  { subst st1. unfold save_followers, save_following. simpl.
    rewrite lookup_alter_eq. rewrite lookup_alter_ne by done. by rewrite HB. }
  split_and!; [done | done | |].
  - eexists. split; [exact HB1|]. simpl. split; [|done].
    rewrite (without_spec _ _ Hback). tauto.
  - intros Hin [Hm _]. apply (Hm _ _ _ _ HA1 HB1) in Hin. simpl in Hin.
    apply (without_spec _ _ Hback) in Hin. tauto.
Qed.

End Relation.

(** ** Creating posts *)
Section Create.
Import BlogRoutes Examples.
Implicit Types (st : State) (req : Request) (id : ObjectId) (P : Blog).

Lemma validate_create_status body s :
  validate_create body = [] -> b_status body = Some s ->
  s = "draft" \/ s = "published".
Proof.
  unfold validate_create. intros H Hs.
  repeat (apply app_eq_nil in H as [_ H]).
  unfold validate_status in H. rewrite Hs in H. simpl in H.
  unfold isIn in H. case_bool_decide as Hin; [|done].
  apply elem_of_cons in Hin as [->|Hin]; [by left|].
  apply elem_of_cons in Hin as [->|Hin]; [by right|].
  by apply elem_of_nil in Hin.
Qed.

Lemma lifecycle_fresh (s : string) (now : Z) :
  s = "draft" \/ s = "published" ->
  s ∈ ["draft"; "published"]
  /\ (is_Some (if String.eqb s "published" then Some now else None)
      <-> s = "published").
Proof.
  intros [H|H]; subst s; simpl.
  - split; [apply list_elem_of_here|]. split; [by intros [? ?] | done].
  - split; [apply list_elem_of_further, list_elem_of_here|].
    split; [done | by eexists].
Qed.

(** What [POST /] stores when it answers 201, and that it stores nothing
    otherwise. *)
Lemma createBlog_success now newId st req body :
  let r := (createBlog now newId st req body).1 in
  let st' := (createBlog now newId st req body).2 in
  (code r <> 201%nat -> st' = st)
  /\ (code r = 201%nat ->
      exists u blog,
        user req = Some u
        /\ r = mkResponse 201 (Saved "Blog created successfully" blog)
        /\ blogs st !! newId = None
        /\ st' = set_blogs (<[newId := blog]> (blogs st)) st
        /\ _id blog = newId /\ author blog = u_id u
             /\ views blog = 0 /\ likes blog = [] /\ comments blog = []
        /\ status blog = default "draft" (b_status body)
        /\ publishedAt blog
           = (if String.eqb (status blog) "published" then Some now else None)
        /\ lifecycle blog /\ 1 <= readTime blog).
Proof.
  unfold createBlog.
  destruct (validate_create body) eqn:Hv; [|by split].
  destruct (b_content body) as [content|]; [|by split].
  destruct (user req) as [u|]; [|by split].
  destruct (validate _ && _) eqn:Hok; [|by split].
  apply andb_prop in Hok as [_ Hfresh]. apply bool_decide_eq_true in Hfresh.
  split; [done|]. intros _. eexists u, _. split_and!; try done.
  - unfold lifecycle, published. simpl. apply lifecycle_fresh.
    destruct (b_status body) as [s|] eqn:Hs; simpl; [|by left].
    by apply (validate_create_status body).
  - simpl. apply readTimeOf_min.
Qed.

(** X14. A post that [POST /] creates belongs to the requester, is stored
    under the new identifier next to the posts that were there, and starts
    with no view, like or comment; it is a draft unless the body asks for
    ['published'], and has a publication date, the current time, exactly
    in that case.  Its author reads it back; as a draft it is answered 404
    to anyone else.  A request that is not answered 201 stores nothing. *)
Theorem createBlog_then_read now newId st req body :
  let r := (createBlog now newId st req body).1 in
  let st' := (createBlog now newId st req body).2 in
  (code r <> 201%nat -> st' = st)
  /\ (code r = 201%nat ->
      exists blog,
        r = mkResponse 201 (Saved "Blog created successfully" blog)
        /\ blogs st !! newId = None
        /\ blogs st' = <[newId := blog]> (blogs st)
        /\ owner req blog
        /\ views blog = 0 /\ likes blog = [] /\ comments blog = []
        /\ status blog = default "draft" (b_status body)
        /\ publishedAt blog
           = (if String.eqb (status blog) "published" then Some now else None)
        /\ (getBlog st' req newId).1 = ok (Single (view req blog))
        /\ (forall req', ~ published blog -> ~ owner req' blog ->
              getBlog st' req' newId = (fail 404 "Blog not found", st'))).
Proof.
  intros r st'.
  destruct (createBlog_success now newId st req body) as [Hno Hyes].
  split; [exact Hno|]. intros Hc.
  destruct (Hyes Hc) as (u & blog & Hu & Hr & Hfresh & Hst & Hid & Ha & Hv & Hl
                         & Hcm & Hs & Hp & Hlc & Hrt).
  fold r st' in Hr, Hst.
  assert (Hlook : blogs st' !! newId = Some blog).
  { rewrite Hst. simpl. apply lookup_insert_eq. }
  assert (Hown : owner req blog) by (by exists u).
  exists blog. split_and!; try done.
  - by rewrite Hst.
  - unfold getBlog. rewrite Hlook.
    apply not_owner_spec in Hown. rewrite Hown, !andb_false_r. done.
  - intros req' Hnp Hno'. unfold getBlog. rewrite Hlook.
    apply is_published_false in Hnp. apply not_owner_true in Hno'.
    by rewrite Hnp, Hno'.
Qed.

End Create.

(** ** The server as a whole *)
Section Server.
Import BlogRoutes BlogWrites UserRoutes Api Reply Examples.
Variable jwt_verify : string -> VerifyResult.
Variable runValidators : Patch -> bool.
Variable toString : ObjectId -> string.
Variable castId : string -> option ObjectId.
Implicit Types (st : State) (req : Request) (id : ObjectId) (P : Blog).

(** What [auth] and [optionalAuth] pass on. *)
Lemma auth_next st req req' :
  auth jwt_verify st req = (req', CalledNext) ->
  exists t uid u,
    bearer req = Some t /\ ~ revoked st t /\ names jwt_verify t uid
    /\ users st !! uid = Some u /\ req' = set_user u req.
Proof.
  destruct (bearer req) as [t|] eqn:Hb.
  - rewrite (auth_bearer _ _ _ _ Hb). unfold isTokenBlacklisted.
    case_bool_decide as Hr; [done|].
    destruct (jwt_verify t) as [p| | |] eqn:Hv; try done.
    destruct (userId p) as [uid|] eqn:Hp; [|done].
    destruct (users st !! uid) as [u|] eqn:Hu; [|done].
    intros [= <-]. exists t, uid, u. split_and!; try done. by exists p.
  - by rewrite (auth_no_bearer _ _ _ Hb).
Qed.

Lemma optionalAuth_passes st req :
  exists req', optionalAuth jwt_verify st req = (req', CalledNext)
    /\ (req' = req \/ exists uid u, users st !! uid = Some u
                                    /\ req' = set_user u req).
Proof.
  unfold optionalAuth. destruct (authorization req) as [h|]; simpl; [|by eauto].
  destruct (JS.truthy _); [|by eauto].
  destruct (jwt_verify _) as [p| | |]; try by eauto.
  unfold findUser. destruct (userId p) as [uid|]; simpl; [|by eauto].
  destruct (users st !! uid) as [u|] eqn:Hu; [|by eauto].
  eexists. split; [done|]. right. by exists uid, u.
Qed.

Lemma sound_put st id b b0 :
  sound st -> blogs st !! id = Some b0 ->
  _id b = _id b0 -> author b = author b0 -> lifecycle b ->
  1 <= readTime b -> 0 <= views b -> NoDup (likes b) ->
  sound (set_blogs (<[id := b]> (blogs st)) st).
Proof.
  intros [Hk Hb] Hl Hid Ha Hlc Hr Hv Hn. split; [done|].
  intros id' b'. simpl. destruct (decide (id = id')) as [<-|Hne].
  - rewrite lookup_insert_eq. intros [= <-].
    destruct (Hb _ _ Hl) as (Hid0 & _ & _ & _ & _ & Hau).
    split_and!; try done; congruence.
  - rewrite lookup_insert_ne by done. apply Hb.
Qed.

Lemma getBlog_sound st req id : sound st -> sound (getBlog st req id).2.
Proof.
  intros Hs. unfold getBlog. destruct (blogs st !! id) as [P|] eqn:Hl; [|done].
  destruct (_ && _); [done|]. destruct (_ && _); [|done].
  destruct (proj2 Hs _ _ Hl) as (? & ? & ? & ? & ? & ?).
  apply (sound_put _ _ _ P); try done. simpl. lia.
Qed.

Lemma likeBlog_sound st req id : sound st -> sound (likeBlog st req id).2.
Proof.
  intros Hs. unfold likeBlog. destruct (blogs st !! id) as [P|] eqn:Hl; [|done].
  destruct (negb _); [done|]. destruct (user req) as [u|]; [|done].
  destruct (proj2 Hs _ _ Hl) as (? & ? & ? & ? & ? & ?).
  assert (Hf : set_likes (likes P) (toggleLike (u_id u) P) = P)
    by apply toggleLike_other_fields.
  apply (sound_put _ _ _ P); try done.
  - by rewrite <- Hf at 2.
  - by rewrite <- Hf at 2.
  - unfold lifecycle, published in *. unfold toggleLike.
    by destruct (JS.indexOf _ _).
  - unfold toggleLike. by destruct (JS.indexOf _ _).
  - unfold toggleLike. by destruct (JS.indexOf _ _).
  - by apply toggleLike_NoDup.
Qed.

Lemma addComment_sound now st req id text :
  sound st -> sound (addComment now st req id text).2.
Proof.
  intros Hs. unfold addComment. destruct (validate_comment text); [|done].
  destruct (blogs st !! id) as [P|] eqn:Hl; [|done].
  destruct (negb _); [done|].
  destruct (user req) as [u|]; [|done]. destruct text as [t|]; [|done].
  destruct (proj2 Hs _ _ Hl) as (? & ? & ? & ? & ? & ?).
  by apply (sound_put _ _ _ P).
Qed.

Lemma deleteBlog_sound st req id : sound st -> sound (deleteBlog st req id).1.2.
Proof.
  intros Hs. unfold deleteBlog. destruct (blogs st !! id) as [P|] eqn:Hl; [|done].
  destruct (user req) as [u|]; [|done]. destruct (negb _); [done|].
  destruct Hs as [Hk Hb]. split; [done|]. intros id' b'. simpl.
  intros H. apply lookup_delete_Some in H as [_ H]. by apply Hb.
Qed.

Lemma createBlog_sound now newId st req body :
  sound st -> known st req -> sound (createBlog now newId st req body).2.
Proof.
  intros Hs Hkn.
  destruct (createBlog_success now newId st req body) as [Hno Hyes].
  destruct (decide (code (createBlog now newId st req body).1 = 201%nat))
    as [Hc|Hc]; [|by rewrite (Hno Hc)].
  destruct (Hyes Hc) as (u & blog & Hu & _ & Hfresh & -> & Hid & Ha & Hv & Hl
                         & _ & _ & _ & Hlc & Hrt).
  destruct Hs as [Hk Hb]. split; [done|]. intros id' b'. simpl.
  destruct (decide (newId = id')) as [<-|Hne].
  - rewrite lookup_insert_eq. intros [= <-].
    split_and!; try done; [lia | rewrite Hl; apply NoDup_nil_2 |].
    rewrite Ha. by apply Hkn.
  - rewrite lookup_insert_ne by done. apply Hb.
Qed.

Lemma finalUpdates_readTime now P updates r :
  p_readTime (finalUpdates now P updates) = Some r -> 1 <= r.
Proof.
  unfold finalUpdates, stamp_readTime.
  set (p := stamp_publication now P (filteredUpdates updates)).
  assert (Hp : p_readTime p = None).
  { subst p. unfold stamp_publication. by repeat case_match. }
  destruct (p_content p) as [c|]; [|congruence].
  destruct (JS.truthy c); [|congruence].
  simpl. intros [= <-]. apply readTimeOf_min.
Qed.

Lemma updateBlog_sound now st req id updates :
  sound st -> sound (updateBlog runValidators now st req id updates).1.2.
Proof.
  intros Hs.
  destruct (updateBlog_state runValidators now st req id updates)
    as [->|(P & u & Hl & _ & Hv & ->)]; [done|].
  destruct (proj2 Hs _ _ Hl) as (Hid & [Hst Hpub] & Hr & Hvw & Hn & Hau).
  apply (sound_put _ _ _ P); try done.
  - unfold lifecycle, published in *. simpl.
    rewrite finalUpdates_status, finalUpdates_publishedAt.
    destruct (b_status updates) as [s|] eqn:Hs'; simpl.
    + destruct (validate_update_status _ _ Hv Hs') as [->| ->].
      * split; [apply list_elem_of_here|]. simpl.
        split; [by intros [? ?] | done].
      * split; [apply list_elem_of_further, list_elem_of_here|].
        destruct (is_published P) eqn:Hp; simpl.
        -- apply is_published_spec in Hp. unfold published in Hp.
           split; [done|]. intros _. by apply Hpub.
        -- split; [done | by eexists].
    + by repeat case_bool_decide.
  - simpl. destruct (p_readTime _) as [r|] eqn:E; simpl; [|done].
    by apply finalUpdates_readTime in E.
Qed.

Lemma users_sound st st' :
  sound st -> blogs st' = blogs st ->
  (forall k, is_Some (users st !! k) -> is_Some (users st' !! k)) ->
  (forall k u, users st' !! k = Some u -> u_id u = k) ->
  sound st'.
Proof.
  intros [Hk Hb] Hbl Hdom Hk'. split; [done|]. intros id b. rewrite Hbl.
  intros H. destruct (Hb _ _ H) as (? & ? & ? & ? & ? & ?).
  split_and!; try done. by apply Hdom.
Qed.

Lemma saves_sound me b l1 l2 st :
  sound st -> sound (save_followers b l2 (save_following me l1 st)).
Proof.
  intros Hs. apply (users_sound st); [done | done | |].
  - intros k [U0 H]. by apply (saves_defined _ _ _ _ _ _ U0).
  - intros k u H. apply lookup_saves in H as (U0 & H0 & Hi & _).
    rewrite Hi. by apply (proj1 Hs).
Qed.

Lemma follow_sound st req s :
  sound st -> sound (follow toString castId st req s).2.
Proof.
  intros Hs. destruct (follow_state toString castId st req s)
    as [->|(me & A & B & b & _ & _ & _ & _ & _ & _ & ->)]; [done|].
  by apply saves_sound.
Qed.

Lemma unfollow_sound st req s :
  sound st -> sound (unfollow toString castId st req s).2.
Proof.
  intros Hs. destruct (unfollow_state toString castId st req s)
    as [->|(me & A & B & b & _ & _ & _ & _ & ->)]; [done|].
  by apply saves_sound.
Qed.

Lemma logout_sound st req : sound st -> sound (logout st req).2.
Proof.
  intros Hs. unfold logout. destruct (_ <$> _) as [t|]; [|done].
  by destruct (JS.truthy t).
Qed.

(** One request keeps the stores sound. *)
Lemma serve_sound st h c :
  sound st -> sound (serve jwt_verify runValidators toString castId st h c).
Proof.
  intros Hs. unfold serve. set (req := mkRequest h None).
  assert (Hauth : forall handler,
            (forall req', known st req' -> sound (handler st req')) ->
            sound (behind (auth jwt_verify) handler st req)).
  { intros handler Hh. unfold behind.
    destruct (auth jwt_verify st req) as [req' [c' e|]] eqn:Ha; [done|].
    apply Hh. apply auth_next in Ha as (t & uid & u & _ & _ & _ & Hu & ->).
    intros u' [= <-]. rewrite (proj1 Hs _ _ Hu). by eexists. }
  destruct c.
  - unfold behind.
    destruct (optionalAuth_passes st req) as (req' & -> & _).
    by apply getBlog_sound.
  - apply Hauth. intros req' Hk. by apply createBlog_sound.
  - apply Hauth. intros req' _. by apply updateBlog_sound.
  - apply Hauth. intros req' _. by apply deleteBlog_sound.
  - apply Hauth. intros req' _. by apply likeBlog_sound.
  - apply Hauth. intros req' _. by apply addComment_sound.
  - apply Hauth. intros req' _. by apply follow_sound.
  - apply Hauth. intros req' _. by apply unfollow_sound.
  - apply Hauth. intros req' _. by apply logout_sound.
Qed.

Lemma run_sound st trace :
  sound st -> sound (run jwt_verify runValidators toString castId st trace).
Proof.
  revert st. induction trace as [|[h c] trace IH]; intros st Hs; [done|].
  simpl. apply IH. by apply serve_sound.
Qed.

(** X15. Whatever requests are served, every stored post is a draft or
    published, never archived, and has a publication date exactly when it
    is published, provided this held of the stores at the start. *)
Theorem run_keeps_lifecycle st trace id b :
  sound st ->
  blogs (run jwt_verify runValidators toString castId st trace) !! id = Some b ->
  status b <> "archived"
  /\ (status b = "draft" \/ status b = "published")
  /\ (publishedAt b = None <-> status b = "draft").
Proof.
  intros Hs Hl. apply (run_sound st trace) in Hs.
  destruct (proj2 Hs _ _ Hl) as (_ & [Hst Hpub] & _).
  unfold published in Hpub.
  apply elem_of_cons in Hst as [Hst|Hst].
  - rewrite Hst. split_and!; [done | by left |]. split; [done|]. intros _.
    destruct (publishedAt b) as [d|]; [|done].
    assert (status b = "published") by (apply Hpub; by eexists). congruence.
  - apply list_elem_of_singleton in Hst. rewrite Hst.
    split_and!; [done | by right |]. split; [|done]. intros Hn.
    assert (is_Some (publishedAt b)) as [d Hd] by (by apply Hpub).
    congruence.
Qed.

(** X16. Whatever requests are served, every stored post keeps its
    identifier and an author who is a stored user, a read time of at
    least one minute, a view count that is not negative and a like list
    without repetition, provided this held of the stores at the start. *)
Theorem run_keeps_posts st trace id b :
  sound st ->
  blogs (run jwt_verify runValidators toString castId st trace) !! id = Some b ->
  _id b = id
  /\ (exists u, users (run jwt_verify runValidators toString castId st trace) !! author b
                = Some u /\ u_id u = author b)
  /\ 1 <= readTime b /\ 0 <= views b /\ NoDup (likes b).
Proof.
  intros Hs Hl. apply (run_sound st trace) in Hs.
  destruct (proj2 Hs _ _ Hl) as (Hid & _ & Hr & Hv & Hn & [u Hu]).
  split_and!; try done. exists u. split; [done|]. by apply (proj1 Hs).
Qed.

(** The blog handlers and [logout] do not write to the users. *)
Lemma blog_calls_keep_users st req :
  (forall id, users (getBlog st req id).2 = users st)
  /\ (forall now newId body,
        users (createBlog now newId st req body).2 = users st)
  /\ (forall now id updates,
        users (updateBlog runValidators now st req id updates).1.2 = users st)
  /\ (forall id, users (deleteBlog st req id).1.2 = users st)
  /\ (forall id, users (likeBlog st req id).2 = users st)
  /\ (forall now id text, users (addComment now st req id text).2 = users st)
  /\ users (logout st req).2 = users st.
Proof.
  split_and!.
  - intros id. unfold getBlog. by repeat case_match.
  - intros now newId body. unfold createBlog. by repeat case_match.
  - intros now id updates.
    by destruct (updateBlog_state runValidators now st req id updates)
      as [->|(P & u & _ & _ & _ & ->)].
  - intros id. unfold deleteBlog. by repeat case_match.
  - intros id. unfold likeBlog. by repeat case_match.
  - intros now id text. unfold addComment. by repeat case_match.
  - unfold logout. by repeat case_match.
Qed.

Lemma mutual_users st st' : users st' = users st -> mutual st -> mutual st'.
Proof. unfold mutual. by intros ->. Qed.

Lemma serve_mutual st h c :
  reads_back toString castId -> canonical toString castId c ->
  mutual st -> mutual (serve jwt_verify runValidators toString castId st h c).
Proof.
  intros Hback Hc Hm. unfold serve, behind. set (req := mkRequest h None).
  destruct c;
    [destruct (optionalAuth jwt_verify st req) as [req' [c' e|]]
    |destruct (auth jwt_verify st req) as [req' [c' e|]]..]; try done.
  all: try (apply (mutual_users st); [|done];
            by apply (blog_calls_keep_users st req')).
  - by apply follow_unfollow_mutual.
  - by apply follow_unfollow_mutual.
Qed.

(** X17. Served one after the other, the requests keep the follow
    relation mutual and free of self-reference, provided it was so at the
    start and every follow and unfollow request is made with the text of
    an id as the service prints it: B is in the following list of A
    exactly when A is among the followers of B, and A is in neither list
    of A. *)
Theorem run_keeps_mutual st trace a b A B :
  reads_back toString castId ->
  Forall (fun hc => canonical toString castId hc.2) trace ->
  mutual st ->
  users (run jwt_verify runValidators toString castId st trace) !! a = Some A ->
  users (run jwt_verify runValidators toString castId st trace) !! b = Some B ->
  (b ∈ following A <-> a ∈ followers B)
  /\ (a ∉ following A) /\ (a ∉ followers A).
Proof.
  intros Hback Hcan Hm.
  assert (Hr : mutual (run jwt_verify runValidators toString castId st trace)).
  { revert st Hm.
    induction Hcan as [|[h c] trace Hc Hcan IH]; intros st Hm; [done|].
    simpl. apply IH. by apply serve_mutual. }
  intros HA HB. destruct Hr as [Hr Hself]. split_and!.
  - by apply Hr.
  - by apply (Hself a).
  - intros Hin. apply (Hr a a A A HA HA) in Hin. by apply (Hself a A).
Qed.

(** X18. The routes mounted behind [auth], which are those of a call other
    than the read of a post, change the stores only for a request that
    carries a bearer token that is not revoked, verifies and names a
    stored user. *)
Theorem serve_writes_need_token st h c :
  serve jwt_verify runValidators toString castId st h c <> st ->
  (forall id, c <> GetBlog id) ->
  exists t uid u,
    bearer (mkRequest h None) = Some t /\ ~ revoked st t
    /\ names jwt_verify t uid /\ users st !! uid = Some u.
Proof.
  intros Hch Hc. unfold serve, behind in Hch. set (req := mkRequest h None) in *.
  destruct c; [by destruct (Hc id)|..];
    (destruct (auth jwt_verify st req) as [req' [c' e|]] eqn:Ha; [done|];
     apply auth_next in Ha as (t & uid & u & Hb & Hr & Hn & Hu & _);
     by exists t, uid, u).
Qed.

(** How one request changes a post that is stored before and after it. *)
Lemma serve_post st h c id b b' :
  blogs st !! id = Some b ->
  blogs (serve jwt_verify runValidators toString castId st h c) !! id = Some b' ->
  _id b' = _id b /\ author b' = author b
  /\ (views b' = views b
      \/ (c = GetBlog id /\ published b /\ views b' = views b + 1)).
Proof.
  intros Hl. unfold serve, behind. set (req := mkRequest h None).
  assert (Hsame : blogs st !! id = Some b' ->
                  _id b' = _id b /\ author b' = author b
                  /\ (views b' = views b
                      \/ (c = GetBlog id /\ published b
                          /\ views b' = views b + 1))).
  { rewrite Hl. intros [= <-]. split_and!; try done. by left. }
  destruct c as [id0|now newId body|now id0 updates|id0|id0|now id0 text|uid|uid|];
    [destruct (optionalAuth jwt_verify st req) as [req' [c' e|]]
    |destruct (auth jwt_verify st req) as [req' [c' e|]]..]; try done.
  - unfold getBlog. destruct (blogs st !! id0) as [P|] eqn:HP; [|done].
    destruct (_ && _); [done|].
    destruct (is_published P && _) eqn:Hv; [|done]. simpl.
    destruct (decide (id0 = id)) as [->|Hne].
    + rewrite lookup_insert_eq. intros [= <-]. rewrite Hl in HP.
      injection HP as <-. split_and!; try done. right.
      apply andb_prop in Hv as [Hv _]. by apply is_published_spec in Hv.
    + by rewrite lookup_insert_ne.
  - destruct (createBlog_success now newId st req' body) as [Hno Hyes].
    destruct (decide (code (createBlog now newId st req' body).1 = 201%nat))
      as [Hc|Hc]; [|by rewrite (Hno Hc)].
    destruct (Hyes Hc) as (u & blog & _ & _ & Hfresh & -> & _).
    simpl. rewrite lookup_insert_ne by congruence. done.
  - destruct (updateBlog_state runValidators now st req' id0 updates)
      as [->|(P & u & HP & _ & _ & ->)]; [done|]. simpl.
    destruct (decide (id0 = id)) as [->|Hne].
    + rewrite lookup_insert_eq. intros [= <-]. rewrite Hl in HP.
      injection HP as <-. split_and!; try done. by left.
    + by rewrite lookup_insert_ne.
  - unfold deleteBlog. destruct (blogs st !! id0) as [P|]; [|done].
    destruct (user req'); [|done]. destruct (negb _); [done|]. simpl.
    intros H. apply lookup_delete_Some in H as [_ H]. by apply Hsame.
  - unfold likeBlog. destruct (blogs st !! id0) as [P|] eqn:HP; [|done].
    destruct (negb _); [done|]. destruct (user req') as [u|]; [|done]. simpl.
    destruct (decide (id0 = id)) as [->|Hne].
    + rewrite lookup_insert_eq. intros [= <-]. rewrite Hl in HP.
      injection HP as <-. unfold toggleLike.
      destruct (JS.indexOf _ _); split_and!; try done; by left.
    + by rewrite lookup_insert_ne.
  - unfold addComment. destruct (validate_comment text); [|done].
    destruct (blogs st !! id0) as [P|] eqn:HP; [|done].
    destruct (negb _); [done|]. destruct (user req') as [u|]; [|done].
    destruct text as [t|]; [|done]. simpl.
    destruct (decide (id0 = id)) as [->|Hne].
    + rewrite lookup_insert_eq. intros [= <-]. rewrite Hl in HP.
      injection HP as <-. split_and!; try done. by left.
    + by rewrite lookup_insert_ne.
  - destruct (follow_state toString castId st req' uid)
      as [->|(me & A & B & b0 & _ & _ & _ & _ & _ & _ & ->)]; done.
  - destruct (unfollow_state toString castId st req' uid)
      as [->|(me & A & B & b0 & _ & _ & _ & _ & ->)]; done.
  - unfold logout. by repeat case_match.
Qed.

(** X19. Whatever requests are served, a post keeps its author, and its
    view count never decreases: over a sequence of requests during which
    the post stays stored, the count grows by at most the number of
    requests. *)
Theorem run_keeps_author_and_views trace : forall st id b b',
  blogs st !! id = Some b ->
  (forall n, n <= length trace ->
     is_Some (blogs (run jwt_verify runValidators toString castId st (take n trace)) !! id))%nat ->
  blogs (run jwt_verify runValidators toString castId st trace) !! id = Some b' ->
  author b' = author b
  /\ views b <= views b' <= views b + Z.of_nat (length trace).
Proof.
  induction trace as [|[h c] trace IH]; intros st id b b' Hl Halive Hl'.
  - simpl in Hl'. rewrite Hl in Hl'. injection Hl' as <-. simpl. lia.
  - simpl in Hl'.
    destruct (Halive 1%nat) as [b1 Hb1]; [simpl; lia|]. simpl in Hb1.
    destruct (serve_post st h c id b b1 Hl Hb1) as (_ & Ha & Hv).
    destruct (IH _ id b1 b' Hb1) as [Ha' Hv']; [|done|].
    + intros n Hn. apply (Halive (S n)). simpl. lia.
    + split; [congruence|]. simpl length.
      destruct Hv as [Hv|(_ & _ & Hv)]; lia.
Qed.

End Server.

(** ** The pages of a listing *)
Section Pages.
Import BlogRoutes Examples.
Variable regex_i : string -> option (string -> bool).
Variable sort_docs : SortOptions -> list Blog -> list Blog.
Variable runValidators : Patch -> bool.
Implicit Types (st : State) (req : Request) (q : Query).

Lemma listed_page st req q re :
  search_filter regex_i (q_search q) = Some re ->
  listed (getBlogs regex_i sort_docs st req q)
  = take (Z.to_nat (pageSize q))
         (drop (Z.to_nat ((pageNumber q - 1) * pageSize q))
               (sort_docs (sortOptions (q_sort q))
                  (find (mkFilter (category_filter (q_category q)) re) st))).
Proof.
  intros Hre. unfold getBlogs, listed. rewrite Hre. simpl.
  rewrite <- list_fmap_compose. apply list_fmap_id.
Qed.

(** X25. The pages of a listing leave nothing out and repeat nothing: for
    a given filter, sort key and page size [s], the pages 1 to [n] put end
    to end are the first [n * s] matching posts in sorted order. *)
Theorem pages_cover st req q re (n : nat) :
  search_filter regex_i (q_search q) = Some re ->
  concat ((fun p => listed (getBlogs regex_i sort_docs st req
                                     (at_page q (Z.of_nat p))))
            <$> seq 1 n)
  = take (n * Z.to_nat (pageSize q))
         (sort_docs (sortOptions (q_sort q))
            (find (mkFilter (category_filter (q_category q)) re) st)).
Proof.
  intros Hre. induction n as [|n IH]; [done|].
  rewrite seq_S, fmap_app, concat_app, IH. simpl. rewrite app_nil_r.
  rewrite (listed_page _ _ (at_page q _) re) by done.
  change (pageSize (at_page q (Z.of_nat (S n)))) with (pageSize q).
  change (q_sort (at_page q (Z.of_nat (S n)))) with (q_sort q).
  change (q_category (at_page q (Z.of_nat (S n)))) with (q_category q).
  assert (Z.to_nat ((pageNumber (at_page q (Z.of_nat (S n))) - 1) * pageSize q)
          = (n * Z.to_nat (pageSize q))%nat) as ->.
  { unfold pageNumber. simpl q_page. simpl default.
    pose proof (pageSize_range q). nia. }
  rewrite take_take_drop. f_equal. lia.
Qed.

End Pages.

(** ** Likes as the client sees them, and the life of a revoked token *)
Section LikesAndTokens.
Import BlogRoutes BlogWrites UserRoutes Api Examples.
Variable jwt_verify : string -> VerifyResult.
Variable runValidators : Patch -> bool.
Variable toString : ObjectId -> string.
Variable castId : string -> option ObjectId.
Implicit Types (st : State) (req : Request) (id : ObjectId) (P : Blog).

(** X26. On a published post whose like list has no repetition,
    [POST /:id/like] answers with the opposite of what held before: a user
    who had not liked the post is told [isLiked: true] and a count one
    higher, a user who had is told [isLiked: false] and a count one lower.
    On a post that is not published the answer is 404 for everyone, its
    author included, and nothing is written. *)
Theorem likeBlog_answers st req id P :
  blogs st !! id = Some P ->
  (published P -> NoDup (likes P) ->
   forall u, user req = Some u ->
     (u_id u ∉ likes P ->
      (likeBlog st req id).1
      = ok (LikeState "Like toggled successfully" true (S (likeCount P))))
     /\ (u_id u ∈ likes P ->
         exists n, likeCount P = S n
           /\ (likeBlog st req id).1
              = ok (LikeState "Like toggled successfully" false n)))
  /\ (~ published P ->
      likeBlog st req id = (fail 404 "Blog not found", st)).
Proof.
  intros Hl. split.
  - intros Hp Hnd u Hu. rewrite (likeBlog_published st req id P u Hl Hp Hu).
    simpl. split.
    + intros Hni. rewrite toggleLike_absent by done. unfold likeCount.
      rewrite (toggleLike_absent _ _ Hni), length_app. simpl.
      assert (JS.includes (u_id u) (likes P ++ [u_id u]) = true) as ->.
      { apply includes_spec. rewrite elem_of_app. right. left. }
      do 3 f_equal. lia.
    + intros Hin.
      destruct (toggleLike_present P (u_id u) Hin) as (l1 & l2 & HP & Hn1 & Ht).
      exists (length (l1 ++ l2)). unfold likeCount. rewrite Ht, HP. split.
      * rewrite !length_app. simpl. lia.
      * assert (JS.includes (u_id u) (l1 ++ l2) = false) as ->; [|done].
        apply includes_false. rewrite HP in Hnd.
        apply NoDup_app in Hnd as (_ & _ & Hnd2).
        apply NoDup_cons in Hnd2 as [Hn2 _].
        rewrite elem_of_app. clear -Hn1 Hn2. tauto.
  - intros Hp. apply is_published_false in Hp. unfold likeBlog.
    by rewrite Hl, Hp.
Qed.

(** No request takes a token out of the revocation set. *)
Lemma serve_keeps_revoked st h c t :
  revoked st t -> revoked (serve jwt_verify runValidators toString castId st h c) t.
Proof.
  unfold revoked. intros Hr. unfold serve, behind.
  set (req := mkRequest h None).
  assert (Hsame : forall st', tokenBlacklist st' = tokenBlacklist st ->
                              t ∈ tokenBlacklist st') by (by intros st' ->).
  destruct c as [id|now newId body|now id updates|id|id|now id text|uid|uid|];
    [destruct (optionalAuth jwt_verify st req) as [req' [c' e|]]
    |destruct (auth jwt_verify st req) as [req' [c' e|]]..]; try done.
  - apply Hsame. unfold getBlog. by repeat case_match.
  - apply Hsame. unfold createBlog. by repeat case_match.
  - apply Hsame.
    by destruct (updateBlog_state runValidators now st req' id updates)
      as [->|(P & u & _ & _ & _ & ->)].
  - apply Hsame. unfold deleteBlog. by repeat case_match.
  - apply Hsame. unfold likeBlog. by repeat case_match.
  - apply Hsame. unfold addComment. by repeat case_match.
  - apply Hsame.
    by destruct (follow_state toString castId st req' uid)
      as [->|(me & A & B & b0 & _ & _ & _ & _ & _ & _ & ->)].
  - apply Hsame.
    by destruct (unfollow_state toString castId st req' uid)
      as [->|(me & A & B & b0 & _ & _ & _ & _ & ->)].
  - unfold logout. destruct (_ <$> _) as [t'|]; [|done].
    destruct (JS.truthy t'); [|done]. simpl. apply elem_of_union. by right.
Qed.

(** X27. Revocation is for good: once a token is in the revocation set,
    whatever requests are served afterwards, [auth] answers 401 to every
    request that bears it. *)
Theorem revoked_for_good st trace req t :
  revoked st t -> bearer req = Some t ->
  unauthenticated
    (auth jwt_verify (run jwt_verify runValidators toString castId st trace) req) req.
Proof.
  intros Hr Hb.
  assert (Hr' : revoked (run jwt_verify runValidators toString castId st trace) t).
  { revert st Hr. induction trace as [|[h c] trace IH]; intros st Hr; [done|].
    simpl. apply IH. by apply serve_keeps_revoked. }
  rewrite (auth_bearer _ _ _ _ Hb). unfold isTokenBlacklisted.
  rewrite bool_decide_eq_true_2 by done. by eexists.
Qed.

End LikesAndTokens.

(** ** The further statements at sample requests *)
Section MoreSamples.
Import BlogRoutes BlogWrites UserRoutes Api Reply Examples.

Lemma fresh_users k u :
  users fresh !! k = Some u ->
  (k = 1%N /\ u = dave) \/ (k = 2%N /\ u = erin).
Proof.
  unfold fresh, strangers. simpl. rewrite lookup_insert.
  destruct (decide (1%N = k)) as [<-|_]; [intros [= <-]; by left|].
  rewrite lookup_insert.
  destruct (decide (2%N = k)) as [<-|_]; [intros [= <-]; by right|].
  by rewrite lookup_empty.
Qed.

Lemma fresh_sound : sound fresh.
Proof.
  split.
  - intros k u H. by destruct (fresh_users k u H) as [[-> ->]|[-> ->]].
  - intros id b H. unfold fresh, strangers in H. simpl in H.
    by rewrite lookup_empty in H.
Qed.

Lemma fresh_mutual : mutual fresh.
Proof.
  split.
  - intros a b A B HA HB.
    destruct (fresh_users a A HA) as [[-> ->]|[-> ->]];
      destruct (fresh_users b B HB) as [[-> ->]|[-> ->]]; simpl;
      split; intros H; by apply elem_of_nil in H.
  - intros a A HA.
    destruct (fresh_users a A HA) as [[-> ->]|[-> ->]]; apply not_elem_of_nil.
Qed.

Lemma sample_day_canonical :
  Forall (fun hc => canonical hex unhex hc.2) sample_day.
Proof.
  assert (H1 : forall b, unhex (hex 1%N) = Some b -> hex 1%N = hex b).
  { intros b H. rewrite unhex_hex in H. by injection H as <-. }
  unfold sample_day.
  repeat (apply Forall_cons; split; [first [exact I | exact H1]|]).
  apply Forall_nil_2.
Qed.

(** A text in upper case is the text of no id. *)
Lemma upper_case_text i : "0000000000000000000000CD" <> hex i.
Proof.
  intros E. pose proof (unhex_hex i) as H. rewrite <- E in H.
  vm_compute in H. injection H as <-. vm_compute in E. discriminate.
Qed.

Lemma bob_not_owner i : ~ owner as_bob (post "published" i).
Proof. intros (u & [= <-] & Hu). discriminate. Qed.


(** Bob can neither publish nor delete Alice's draft. *)
Lemma writes_need_owner_witness :
  (updateBlog accept_all 5 (store "draft" 2) as_bob 1%N
              (status_patch "published")).1.2 = store "draft" 2
  /\ (deleteBlog (store "draft" 2) as_bob 1%N).1.2 = store "draft" 2.
Proof.
  destruct (writes_need_owner accept_all 5 (store "draft" 2) as_bob 1%N
              (status_patch "published") (post "draft" 1))
    as (Hu & _ & Hd & _); [reflexivity | |].
  - intros (u & [= <-] & Hu). discriminate.
  - split; [exact Hu | exact Hd].
Defined.

(** Bob comments on Alice's published post at time 6. *)
Lemma addComment_appends_witness :
  (addComment 6 (store "published" 2) as_bob 1%N (Some "Well said")).1
  = Done 201 (Some "Comment added successfully") (mkComment 2%N "Well said" 6).
Proof.
  destruct (addComment_appends 6 (store "published" 2) as_bob 1%N
              (post "published" 1) bob "Well said")
    as (H & _); [reflexivity | reflexivity | reflexivity | simpl; lia |].
  rewrite H. reflexivity.
Defined.

(** Alice's own list holds her two drafts. *)
Lemma myPosts_own_witness :
  exists l,
    myPosts (fun l => l) (store "draft" 2) as_alice = Done 200 None l
    /\ length l = 2%nat.
Proof.
  destruct (myPosts_own (fun l => l) (fun l => Permutation_refl l)
              (store "draft" 2) as_alice alice)
    as (l & Hm & _ & Hlen); [reflexivity|].
  exists l. split; [exact Hm|]. rewrite Hlen. reflexivity.
Defined.

(** Dave follows Erin and thinks better of it. *)
Lemma follow_then_unfollow_witness :
  unfollow hex unhex
    (follow hex unhex strangers as_dave (hex 2%N)).2 as_dave (hex 2%N)
  = (ok (Message "User unfollowed successfully"), strangers).
Proof.
  apply (follow_then_unfollow hex unhex strangers as_dave dave dave erin 2%N);
    [exact unhex_hex | reflexivity | reflexivity | reflexivity | discriminate
     | apply not_elem_of_nil | apply not_elem_of_nil].
Defined.

(** Dave unfollows Erin, whom he does not follow: nothing happens. *)
Lemma unfollow_settles_witness :
  unfollow hex unhex strangers as_dave (hex 2%N)
  = (ok (Message "User unfollowed successfully"), strangers).
Proof.
  destruct (unfollow_settles hex unhex strangers as_dave dave dave erin 2%N)
    as (Hr & _ & _ & _ & Hsame);
    [exact unhex_hex | reflexivity | reflexivity | reflexivity | discriminate
    |].
  rewrite (surjective_pairing
             (unfollow hex unhex strangers as_dave (hex 2%N))), Hr.
  rewrite Hsame; [reflexivity | apply not_elem_of_nil | apply not_elem_of_nil].
Defined.

(** Ann unfollows Ben with his id in upper case: she still follows him,
    and he no longer counts her among his followers. *)
Lemma unfollow_other_text_witness :
  let st1 :=
    (unfollow hex unhex friends as_ann "0000000000000000000000CD").2 in
  lists friends 0xab%N = Some ([0xcd%N], [])
  /\ lists friends 0xcd%N = Some ([], [0xab%N])
  /\ users st1 !! 0xab%N = Some ann
  /\ ~ mutual st1.
Proof.
  intros st1.
  destruct (unfollow_other_text hex unhex friends as_ann ann ann ben 0xcd%N
              "0000000000000000000000CD")
    as (_ & HA & _ & Hnm);
    [exact unhex_hex | reflexivity | exact upper_case_text | reflexivity
     | reflexivity | reflexivity | discriminate |].
  split; [reflexivity|]. split; [reflexivity|]. split; [exact HA|].
  apply Hnm. apply list_elem_of_here.
Defined.

(** Dave follows Erin. *)
Lemma follow_records_witness :
  exists st',
    follow hex unhex strangers as_dave (hex 2%N)
    = (ok (Message "User followed successfully"), st')
    /\ users st' !! 1%N = Some (set_following [2%N] dave)
    /\ users st' !! 2%N = Some (set_followers [1%N] erin).
Proof.
  apply (follow_records hex unhex strangers as_dave dave erin dave 2%N
           (hex 2%N));
    [exact unhex_hex | apply unhex_hex | reflexivity | reflexivity
     | discriminate | reflexivity | apply not_elem_of_nil].
Defined.

(** Alice logs out; her token is refused afterwards. *)
Lemma logout_revokes_witness :
  let req := mkRequest (Some "Bearer alice") None in
  unauthenticated
    (auth sample_verify (App.post_logout sample_verify (store "draft" 0) req).2
          req) req.
Proof.
  intros req.
  apply (logout_revokes sample_verify (store "draft" 0) req "alice" 1%N alice);
    [reflexivity | reflexivity | | | reflexivity].
  - unfold revoked. simpl. apply not_elem_of_empty.
  - eexists. split; reflexivity.
Defined.

(** The third page of ten over 25 published posts holds five of them. *)
Lemma getBlogs_page_witness :
  exists page,
    getBlogs sample_regex sample_sort (store "published" 25) anonymous (tens 3)
    = ok (Listing page (JS.Int 3) 3 25)
    /\ length page = 5%nat.
Proof.
  destruct (getBlogs_page sample_regex sample_sort sample_sort_perm
              (store "published" 25) anonymous (tens 3) None)
    as (Hg & Hlen & _); [reflexivity|].
  eexists. split.
  - rewrite Hg. reflexivity.
  - rewrite length_fmap. apply Nat2Z.inj. rewrite Hlen. reflexivity.
Defined.

(** The first three pages of ten over 25 published posts are all of them. *)
Lemma pages_cover_witness :
  length (concat ((fun p =>
                     listed (getBlogs sample_regex sample_sort
                               (store "published" 25) anonymous
                               (at_page (tens 1) (Z.of_nat p))))
                    <$> seq 1 3))
  = 25%nat.
Proof.
  rewrite (pages_cover sample_regex sample_sort (store "published" 25)
             anonymous (tens 1) None 3); [|reflexivity].
  vm_compute. reflexivity.
Defined.

(** Four hundred words, and nothing around them. *)
Lemma readTimeOf_unpadded_witness : readTimeOf (repeat_word 400) = 2.
Proof.
  rewrite (readTimeOf_unpadded (repeat_word 400));
    [vm_compute; reflexivity | | vm_compute; reflexivity
     | vm_compute; reflexivity].
  intros H. vm_compute in H. discriminate.
Defined.

(** After the sample day post 7 is a draft again, without publication
    date; it kept its author, its two views and Bob's like. *)
Lemma run_keeps_lifecycle_witness :
  exists b, blogs (run sample_verify accept_all hex unhex fresh sample_day) !! 7%N = Some b
            /\ status b = "draft" /\ publishedAt b = None.
Proof.
  destruct (blogs (run sample_verify accept_all hex unhex fresh sample_day) !! 7%N) as [b|] eqn:Hl; [|vm_compute in Hl; discriminate].
  destruct (run_keeps_lifecycle sample_verify accept_all hex unhex fresh sample_day
              7%N b fresh_sound Hl) as (_ & _ & Hd).
  assert (Hs : status b = "draft").
  { vm_compute in Hl. injection Hl as <-. reflexivity. }
  exists b. split; [reflexivity|]. split; [exact Hs | by apply Hd].
Defined.

Lemma run_keeps_posts_witness :
  exists b, blogs (run sample_verify accept_all hex unhex fresh sample_day) !! 7%N = Some b
            /\ is_Some (users (run sample_verify accept_all hex unhex fresh sample_day) !! author b) /\ 1 <= readTime b.
Proof.
  destruct (blogs (run sample_verify accept_all hex unhex fresh sample_day) !! 7%N) as [b|] eqn:Hl; [|vm_compute in Hl; discriminate].
  destruct (run_keeps_posts sample_verify accept_all hex unhex fresh sample_day
              7%N b fresh_sound Hl) as (_ & (u & Hu & _) & Hr & _).
  exists b. split; [reflexivity|]. split; [by exists u | exact Hr].
Defined.

(** After the sample day user 2 follows user 1, on both sides. *)
Lemma run_keeps_mutual_witness :
  exists A B, users (run sample_verify accept_all hex unhex fresh sample_day) !! 2%N = Some A /\ users (run sample_verify accept_all hex unhex fresh sample_day) !! 1%N = Some B
              /\ 1%N ∈ following A /\ 2%N ∈ followers B.
Proof.
  destruct (users (run sample_verify accept_all hex unhex fresh sample_day) !! 2%N) as [A|] eqn:HA; [|vm_compute in HA; discriminate].
  destruct (users (run sample_verify accept_all hex unhex fresh sample_day) !! 1%N) as [B|] eqn:HB; [|vm_compute in HB; discriminate].
  pose proof (run_keeps_mutual sample_verify accept_all hex unhex fresh
                sample_day 2%N 1%N A B unhex_hex sample_day_canonical
                fresh_mutual HA HB) as Hm.
  assert (Hin : 1%N ∈ following A).
  { vm_compute in HA. injection HA as <-. apply list_elem_of_here. }
  exists A, B. split; [reflexivity|]. split; [reflexivity|].
  split; [exact Hin | by apply Hm].
Defined.

(** The creation of post 7 changes the stores: it came with Alice's token. *)
Lemma serve_writes_need_token_witness :
  exists t uid u,
    bearer (mkRequest (Some "Bearer alice") None) = Some t
    /\ ~ revoked fresh t /\ names sample_verify t uid
    /\ users fresh !! uid = Some u.
Proof.
  apply (serve_writes_need_token sample_verify accept_all hex unhex fresh
           (Some "Bearer alice") (CreateBlog 5 7%N published_post)).
  - intros H. apply (f_equal (fun st => blogs st !! 7%N)) in H.
    vm_compute in H. discriminate.
  - intros id. discriminate.
Defined.

(** Two reads of Alice's post by others: two more views, same author. *)
Lemma run_keeps_author_and_views_witness :
  exists b',
    blogs (run sample_verify accept_all hex unhex (store "published" 2)
               [(Some "Bearer bob", GetBlog 1%N); (None, GetBlog 1%N)]) !! 1%N
    = Some b'
    /\ author b' = 1%N /\ 0 <= views b' <= 2.
Proof.
  set (trace := [(Some "Bearer bob", GetBlog 1%N); (None, GetBlog 1%N)]).
  destruct (blogs (run sample_verify accept_all hex unhex (store "published" 2) trace)
              !! 1%N) as [b'|] eqn:Hl; [|vm_compute in Hl; discriminate].
  destruct (run_keeps_author_and_views sample_verify accept_all hex unhex trace
              (store "published" 2) 1%N (post "published" 1) b')
    as (Ha & Hv); [reflexivity | | exact Hl |].
  - intros n Hn. destruct n as [|[|[|n]]];
      [vm_compute; eauto | vm_compute; eauto | vm_compute; eauto
       | simpl in Hn; lia].
  - exists b'. split; [reflexivity|]. split; [exact Ha | exact Hv].
Defined.

(** Bob likes Alice's published post, which nobody liked. *)
Lemma likeBlog_answers_witness :
  (likeBlog (store "published" 2) as_bob 1%N).1
  = ok (LikeState "Like toggled successfully" true 1).
Proof.
  destruct (likeBlog_answers (store "published" 2) as_bob 1%N
              (post "published" 1)) as (Hyes & _); [reflexivity|].
  destruct (Hyes eq_refl (NoDup_nil_2 (A:=ObjectId)) bob eq_refl) as (Hnew & _).
  apply Hnew. apply not_elem_of_nil.
Defined.

(** Carol's revoked token stays refused through the sample day. *)
Lemma revoked_for_good_witness :
  let req := mkRequest (Some "Bearer carol") None in
  unauthenticated
    (auth admin_verify (run admin_verify accept_all hex unhex admin_store sample_day) req)
    req.
Proof.
  intros req.
  apply (revoked_for_good admin_verify accept_all hex unhex admin_store
           sample_day req
           "carol"); [|reflexivity].
  unfold revoked. simpl. apply elem_of_singleton. reflexivity.
Defined.

End MoreSamples.
